(** * Habr keyword scraper: a shallow embedding of [main.py]

    The development follows the layout of the program:

    - Python values: strings as lists of code points, exceptions as a
      result type;
    - the Unicode tables and the year format of the platform, which the
      program reads through [re], [str.lower], [int] and [strftime], as
      parameters: every property below is proved for any tables, under
      the hypotheses on them that it names;
    - the library calls the program relies on ([re], [datetime],
      [BeautifulSoup], [requests]) as small executable models;
    - the class [HabrScraper] with its methods, under their own names;
    - the properties of the fetch / extract pipeline.

    Logging calls only write to the log and are left out. *)

From Stdlib Require Import List ZArith Bool Lia String Ascii DecimalString.
Import ListNotations.
Open Scope Z_scope.

(* ================================================================= *)
(** * Python values *)

(** A character is a Unicode code point ([ord c]); a [str] is the list of
    its characters, so that [len] and slicing count code points. *)
Definition char := Z.
Definition pystr := list char.

(** UTF-8 decoding, used to write string constants as literals. *)
Fixpoint utf8_decode (bs : list Z) : pystr :=
  match bs with
  | [] => []
  | b0 :: r0 =>
      if b0 <? 128 then b0 :: utf8_decode r0
      else if b0 <? 224 then
        match r0 with
        | b1 :: r1 => ((b0 - 192) * 64 + (b1 - 128)) :: utf8_decode r1
        | _ => []
        end
      else if b0 <? 240 then
        match r0 with
        | b1 :: b2 :: r2 =>
            ((b0 - 224) * 4096 + (b1 - 128) * 64 + (b2 - 128)) :: utf8_decode r2
        | _ => []
        end
      else
        match r0 with
        | b1 :: b2 :: b3 :: r3 =>
            ((b0 - 240) * 262144 + (b1 - 128) * 4096 + (b2 - 128) * 64 + (b3 - 128))
              :: utf8_decode r3
        | _ => []
        end
  end.

Definition py (s : string) : pystr :=
  utf8_decode (map (fun a => Z.of_N (N_of_ascii a)) (list_ascii_of_string s)).

Fixpoint str_eqb (a b : pystr) : bool :=
  match a, b with
  | [], [] => true
  | x :: a', y :: b' => (x =? y) && str_eqb a' b'
  | _, _ => false
  end.

(** [len s], [not s], [s[:n]], [s.startswith(p)], [sep.join(parts)]. *)
Definition len (s : pystr) : Z := Z.of_nat (List.length s).

Definition is_empty {A} (l : list A) : bool :=
  match l with [] => true | _ => false end.

Definition slice_to (n : nat) (s : pystr) : pystr := firstn n s.

Fixpoint startswith (s prefix : pystr) : bool :=
  match prefix, s with
  | [], _ => true
  | p :: prefix', c :: s' => (c =? p) && startswith s' prefix'
  | _ :: _, [] => false
  end.

Fixpoint join (sep : pystr) (parts : list pystr) : pystr :=
  match parts with
  | [] => []
  | [p] => p
  | p :: rest => p ++ sep ++ join sep rest
  end.

(** ** Character tables *)
Definition between (lo hi c : Z) : bool := (lo <=? c) && (c <=? hi).

(** [str.isspace] / the class [\s]. *)
Definition is_space (c : char) : bool :=
  between 9 13 c || between 28 32 c || (c =? 133) || (c =? 160)
  || (c =? 5760) || between 8192 8202 c || between 8232 8233 c
  || (c =? 8239) || (c =? 8287) || (c =? 12288).

(** The decimal digits [0-9]. *)
Definition is_ascii_digit (c : char) : bool := between 48 57 c.

(** The tables of the Unicode database and the behaviour of the platform
    that the program depends on. They belong to the interpreter and its C
    library, not to the program, and are taken as given:

    - [is_word]: the class [\w] of [re], which also decides where [\b]
      holds;
    - [is_digit]: the class [\d], every decimal digit of Unicode, and
      [digit_value], the value [int] gives to such a digit;
    - [ci_match x c]: under [re.IGNORECASE], the character [x] of the
      text matches the literal [c] of the pattern;
    - [lower]: [str.lower], which need not work character by character
      nor keep the length;
    - [format_year]: the text [strftime] writes for [%Y], zero-padded to
      four digits on some platforms and not padded on others. *)
Class unicode := {
  is_word : char -> bool;
  is_digit : char -> bool;
  digit_value : char -> Z;
  ci_match : char -> char -> bool;
  lower : pystr -> pystr;
  format_year : Z -> pystr
}.

(** [s.strip()]. *)
Fixpoint lstrip (s : pystr) : pystr :=
  match s with
  | c :: s' => if is_space c then lstrip s' else s
  | [] => []
  end.

Definition strip (s : pystr) : pystr := rev (lstrip (rev (lstrip s))).

(** ** Exceptions

    The classes below are all subclasses of [Exception]. *)
Inductive exn :=
| ValueError | IndexError | TypeError | RuntimeError
| RequestException | HTTPError | ConnectionError | Timeout.

Definition is_ValueError (e : exn) : bool :=
  match e with ValueError => true | _ => false end.

(** [requests.RequestException] and its subclasses. *)
Definition is_RequestException (e : exn) : bool :=
  match e with
  | RequestException | HTTPError | ConnectionError | Timeout => true
  | _ => false
  end.

Inductive pyresult (A : Type) :=
| Return (a : A)
| Raise (e : exn).
Arguments Return {A} a.
Arguments Raise {A} e.

Definition bind {A B} (m : pyresult A) (f : A -> pyresult B) : pyresult B :=
  match m with
  | Return a => f a
  | Raise e => Raise e
  end.

Notation "x <- m ;; k" := (bind m (fun x => k))
  (at level 61, m at next level, right associativity).

(* ================================================================= *)
(** * The [re] module

    Patterns are kept in compiled form: a sequence of items, matched left
    to right with backtracking, always under [re.IGNORECASE] (both users
    of the module compile with that flag). *)
Module re.

Section Engine.
Context {U : unicode}.

Inductive cls :=
| Digit                      (* \d *)
| Range (lo hi : char)       (* [lo-hi] *)
| Only (c : char).           (* a single character inside a group *)

Definition cls_match (k : cls) (c : char) : bool :=
  match k with
  | Digit => is_digit c
  | Range lo hi => between lo hi c
  | Only x => c =? x
  end.

Inductive item :=
| Lit (c : char)                                  (* an escaped literal *)
| Boundary                                        (* \b *)
| Spaces                                          (* \s+ *)
| Group (name : pystr) (alts : list (list cls))   (* (?P<name>a|b|...) *)
| GroupRep (name : pystr) (k : cls) (lo hi : nat). (* (?P<name>k{lo,hi}) *)

Definition pattern := list item.

(** [match.groupdict()]: group name to matched text. *)
Definition groupdict := list (pystr * pystr).

Fixpoint get (gd : groupdict) (name : pystr) : option pystr :=
  match gd with
  | [] => None
  | (n, v) :: gd' => if str_eqb n name then Some v else get gd' name
  end.

Definition word_at (c : option char) : bool :=
  match c with Some x => is_word x | None => false end.

(** [\b] between the character before the position and the one after. *)
Definition at_boundary (prev : option char) (s : pystr) : bool :=
  xorb (word_at prev) (word_at (hd_error s)).

(** The character before the position reached after reading [m]. *)
Definition last_of (prev : option char) (m : pystr) : option char :=
  fold_left (fun _ c => Some c) m prev.

(** One alternative of a group: a fixed sequence of classes. *)
Fixpoint match_alt (a : list cls) (s : pystr) : option (pystr * pystr) :=
  match a with
  | [] => Some ([], s)
  | k :: a' =>
      match s with
      | c :: s' =>
          if cls_match k c then
            match match_alt a' s' with
            | Some (m, rest) => Some (c :: m, rest)
            | None => None
            end
          else None
      | [] => None
      end
  end.

Definition or_else {R} (x : option R) (y : option R) : option R :=
  match x with Some r => Some r | None => y end.

(** Alternatives are tried in order; a later one is tried when the rest
    of the pattern fails after an earlier one. *)
Fixpoint first_alt {R} (alts : list (list cls)) (s : pystr)
         (k : pystr -> pystr -> option R) : option R :=
  match alts with
  | [] => None
  | a :: more =>
      or_else
        (match match_alt a s with
         | Some (m, rest) => k m rest
         | None => None
         end)
        (first_alt more s k)
  end.

(** Greedy bounded repetition [k{lo,hi}]: [n] more characters may be
    taken, [acc] is what was taken so far. *)
Fixpoint repeat_greedy {R} (c : cls) (lo : nat) (n : nat) (acc s : pystr)
         (k : pystr -> pystr -> option R) : option R :=
  let stop := if (lo <=? List.length acc)%nat then k acc s else None in
  match n, s with
  | S n', x :: s' =>
      if cls_match c x
      then or_else (repeat_greedy c lo n' (acc ++ [x]) s' k) stop
      else stop
  | _, _ => stop
  end.

(** Greedy [\s+]; [taken] tells whether a space was consumed already. *)
Fixpoint spaces_greedy {R} (taken : option char) (s : pystr)
         (k : char -> pystr -> option R) : option R :=
  let stop := match taken with Some c => k c s | None => None end in
  match s with
  | x :: s' =>
      if is_space x then or_else (spaces_greedy (Some x) s' k) stop else stop
  | [] => stop
  end.

(** [rmatch p prev s gd]: match [p] at the start of [s], where [prev]
    is the character before [s]; the result is the unmatched rest and
    the groups. *)
Fixpoint rmatch (p : pattern) (prev : option char) (s : pystr)
         (gd : groupdict) : option (pystr * groupdict) :=
  match p with
  | [] => Some (s, gd)
  | Lit c :: p' =>
      match s with
      | x :: s' =>
          if ci_match x c then rmatch p' (Some x) s' gd else None
      | [] => None
      end
  | Boundary :: p' =>
      if at_boundary prev s then rmatch p' prev s gd else None
  | Spaces :: p' =>
      spaces_greedy None s (fun c rest => rmatch p' (Some c) rest gd)
  | Group name alts :: p' =>
      first_alt alts s
        (fun m rest => rmatch p' (last_of prev m) rest ((name, m) :: gd))
  | GroupRep name c lo hi :: p' =>
      repeat_greedy c lo hi [] s
        (fun m rest => rmatch p' (last_of prev m) rest ((name, m) :: gd))
  end.

(** [pattern.match(s)]. *)
Definition match_ (p : pattern) (s : pystr) : option (pystr * groupdict) :=
  rmatch p None s [].

(** [pattern.search(s)]: the start positions are tried left to right. *)
Fixpoint search_from (p : pattern) (prev : option char) (s : pystr) : bool :=
  match rmatch p prev s [] with
  | Some _ => true
  | None =>
      match s with
      | c :: s' => search_from p (Some c) s'
      | [] => false
      end
  end.

Definition search (p : pattern) (s : pystr) : bool := search_from p None s.

(** [re.compile(rf'\b{re.escape(keyword)}\b', re.IGNORECASE)]: every
    character of the escaped keyword stands for itself. *)
Definition compile_word (keyword : pystr) : pattern :=
  Boundary :: map Lit keyword ++ [Boundary].

End Engine.

End re.

(* ================================================================= *)
(** * The [datetime] module *)
Module datetime.

Record t := mk {
  year : Z; month : Z; day : Z;
  hour : Z; minute : Z; second : Z; microsecond : Z
}.

Definition chr (a : ascii) : char := Z.of_N (N_of_ascii a).

Definition is_leap (y : Z) : bool :=
  (y mod 4 =? 0) && (negb (y mod 100 =? 0) || (y mod 400 =? 0)).

Definition days_in_month (y m : Z) : Z :=
  if m =? 2 then (if is_leap y then 29 else 28)
  else if (m =? 4) || (m =? 6) || (m =? 9) || (m =? 11) then 30
  else 31.

(** The constructor checks every field and raises [ValueError]. *)
Definition new (y m d H M S us : Z) : pyresult t :=
  if between 1 9999 y && between 1 12 m && between 1 (days_in_month y m) d
     && between 0 23 H && between 0 59 M && between 0 59 S
     && between 0 999999 us
  then Return (mk y m d H M S us)
  else Raise ValueError.

(** ** [strptime]

    The regular expression of each directive the scraper uses, as in the
    table of [_strptime.TimeRE]. *)
Definition directive (d : char) : option re.item :=
  let D := re.Digit in
  let R := fun a b => re.Range (chr a) (chr b) in
  let O := fun a => re.Only (chr a) in
  if d =? chr "Y" then Some (re.Group (py "Y") [[D; D; D; D]])
  else if d =? chr "m" then
    Some (re.Group (py "m") [[O "1"; R "0" "2"]; [O "0"; R "1" "9"]; [R "1" "9"]])%char
  else if d =? chr "d" then
    Some (re.Group (py "d")
            [[O "3"; R "0" "1"]; [R "1" "2"; D]; [O "0"; R "1" "9"];
             [R "1" "9"]; [O " "; R "1" "9"]])%char
  else if d =? chr "H" then
    Some (re.Group (py "H") [[O "2"; R "0" "3"]; [R "0" "1"; D]; [D]])%char
  else if d =? chr "M" then
    Some (re.Group (py "M") [[R "0" "5"; D]; [D]])%char
  else if d =? chr "S" then
    Some (re.Group (py "S") [[O "6"; R "0" "1"]; [R "0" "5"; D]; [D]])%char
  else if d =? chr "f" then
    Some (re.GroupRep (py "f") (R "0" "9")%char 1 6)
  else None.

(** [TimeRE.pattern]: a run of white space becomes [\s+], a directive its
    expression, any other character an escaped literal; a stray [%] or an
    unknown directive is a [ValueError]. *)
Fixpoint pattern_from (after_space : bool) (format : pystr)
  : pyresult re.pattern :=
  match format with
  | [] => Return []
  | c :: rest =>
      if c =? chr "%" then
        match rest with
        | [] => Raise ValueError
        | d :: rest' =>
            match directive d with
            | Some it => p <- pattern_from false rest' ;; Return (it :: p)
            | None => Raise ValueError
            end
        end
      else if is_space c then
        if after_space then pattern_from true rest
        else p <- pattern_from true rest ;; Return (re.Spaces :: p)
      else p <- pattern_from false rest ;; Return (re.Lit c :: p)
  end.

Definition pattern (format : pystr) : pyresult re.pattern :=
  pattern_from false format.

Section Tables.
Context {U : unicode}.

(** [int(s)] on the text of a group: decimal digits, surrounding white
    space ignored. *)
Fixpoint digits_value (acc : Z) (s : pystr) : option Z :=
  match s with
  | [] => Some acc
  | c :: s' =>
      if is_digit c then digits_value (acc * 10 + digit_value c) s' else None
  end.

Definition int (s : pystr) : pyresult Z :=
  match strip s with
  | [] => Raise ValueError
  | c :: s' =>
      match digits_value 0 (c :: s') with
      | Some v => Return v
      | None => Raise ValueError
      end
  end.

Definition field (gd : re.groupdict) (name : string) (default : Z)
  : pyresult Z :=
  match re.get gd (py name) with
  | Some v => int v
  | None => Return default
  end.

(** [%f]: the digits are padded with zeros on the right to six. *)
Definition fraction (gd : re.groupdict) : pyresult Z :=
  match re.get gd (py "f") with
  | Some s => int (s ++ repeat 48 (6 - List.length s))
  | None => Return 0
  end.

Definition strptime (data_string format : pystr) : pyresult t :=
  p <- pattern format ;;
  match re.match_ p data_string with
  | None => Raise ValueError                (* does not match the format *)
  | Some (rest, gd) =>
      if negb (is_empty rest) then Raise ValueError  (* unconverted data *)
      else
        y <- field gd "Y" 1900 ;;
        m <- field gd "m" 1 ;;
        d <- field gd "d" 1 ;;
        H <- field gd "H" 0 ;;
        M <- field gd "M" 0 ;;
        S <- field gd "S" 0 ;;
        us <- fraction gd ;;
        new y m d H M S us
  end.

(** ** [strftime]

    Zero-padded decimal fields; the year is written as the platform
    writes it. *)
Fixpoint zpad (width : nat) (v : Z) : pystr :=
  match width with
  | O => []
  | S w => zpad w (v / 10) ++ [48 + v mod 10]
  end.

Definition directive_text (d : t) (x : char) : pystr :=
  if x =? chr "Y" then format_year (year d)
  else if x =? chr "m" then zpad 2 (month d)
  else if x =? chr "d" then zpad 2 (day d)
  else if x =? chr "H" then zpad 2 (hour d)
  else if x =? chr "M" then zpad 2 (minute d)
  else if x =? chr "S" then zpad 2 (second d)
  else if x =? chr "f" then zpad 6 (microsecond d)
  else [chr "%"; x].

Fixpoint strftime (d : t) (format : pystr) : pystr :=
  match format with
  | [] => []
  | c :: rest =>
      if c =? chr "%" then
        match rest with
        | [] => [c]
        | x :: rest' => directive_text d x ++ strftime d rest'
        end
      else c :: strftime d rest
  end.

End Tables.

End datetime.

(* ================================================================= *)
(** * [BeautifulSoup]: the document tree and its queries *)
Module bs4.

(** A parsed document: text, comments and tags; [attrs] is the attribute
    dictionary of a tag. *)
#[warnings="-register-all"]
Inductive node :=
| NavigableString (s : pystr)
| Comment (s : pystr)
| Tag (name : pystr) (attrs : list (pystr * pystr)) (contents : list node).

(** [tag.descendants]: every node below the tag, in document order. *)
Fixpoint descendants (n : node) : list node :=
  match n with
  | Tag _ _ cs => flat_map (fun c => c :: descendants c) cs
  | _ => []
  end.

Fixpoint lookup (attrs : list (pystr * pystr)) (key : pystr) : option pystr :=
  match attrs with
  | [] => None
  | (k, v) :: attrs' => if str_eqb k key then Some v else lookup attrs' key
  end.

(** [tag.get(key, default)]. *)
Definition get (n : node) (key default : pystr) : pystr :=
  match n with
  | Tag _ attrs _ =>
      match lookup attrs key with Some v => v | None => default end
  | _ => default
  end.

(** The value of [class] is split at white space into its classes. *)
Fixpoint split_ws (cur s : pystr) : list pystr :=
  match s with
  | [] => if is_empty cur then [] else [cur]
  | c :: s' =>
      if is_space c
      then (if is_empty cur then split_ws [] s' else cur :: split_ws [] s')
      else split_ws (cur ++ [c]) s'
  end.

Definition has_class (attrs : list (pystr * pystr)) (c : pystr) : bool :=
  match lookup attrs (py "class") with
  | Some v => existsb (str_eqb c) (split_ws [] v)
  | None => false
  end.

(** The filter of [find(name, class_=c)]; [class_] is optional. *)
Definition matches (name : pystr) (class_ : option pystr) (n : node) : bool :=
  match n with
  | Tag nm attrs _ =>
      str_eqb nm name
      && match class_ with Some c => has_class attrs c | None => true end
  | _ => false
  end.

Definition find_all (n : node) (name : string) (class_ : option string)
  : list node :=
  filter (matches (py name) (option_map py class_)) (descendants n).

(** [find] is the first result of [find_all], or [None]. *)
Definition find (n : node) (name : string) (class_ : option string)
  : option node :=
  hd_error (find_all n name class_).

(** [tag.get_text(strip=True)]: the text strings below the tag, each one
    stripped, the empty ones dropped, concatenated. *)
Definition strings (n : node) : list pystr :=
  flat_map (fun d => match d with NavigableString s => [s] | _ => [] end)
           (descendants n).

Definition get_text (n : node) : pystr :=
  List.concat (filter (fun s => negb (is_empty s)) (map strip (strings n))).

End bs4.

(* ================================================================= *)
(** * [requests]: responses, and the world a run acts on *)
Module requests.

Record Response := mk {
  status_code : Z;
  content_type : option pystr;
  text : pystr
}.

(** [response.raise_for_status()]: client and server error statuses. *)
Definition raise_for_status (r : Response) : pyresult unit :=
  if between 400 599 (status_code r) then Raise HTTPError else Return tt.

End requests.

(** What a run does to the outside: the number of requests sent and the
    arguments of the calls to [time.sleep], oldest first. *)
Record world := mkWorld {
  sent : nat;
  slept : list Z
}.

Definition sleep (seconds : Z) (w : world) : world :=
  mkWorld (sent w) (slept w ++ [seconds]).

Definition total_slept (w : world) : Z := fold_right Z.add 0 (slept w).

(** [range(n)]. *)
Definition range (n : Z) : list Z := map Z.of_nat (seq 0 (Z.to_nat n)).

(* ================================================================= *)
(** * The program *)

Definition KEYWORDS : list pystr :=
  [py "дизайн"; py "фото"; py "web"; py "python"].

Record Article := mkArticle {
  title : pystr;
  link : pystr;
  date : pystr;
  preview_text : pystr;
  found_keywords : list pystr
}.

Record HabrScraper := mkHabrScraper {
  keywords : list pystr;
  max_retries : Z;
  keyword_patterns : list re.pattern
}.

Section Program.
Context {U : unicode}.

(** [HabrScraper.__init__(keywords, max_retries=3)]. *)
Definition __init__ (keywords : list pystr) (max_retries : Z) : HabrScraper :=
  let keywords := map lower keywords in
  mkHabrScraper keywords max_retries (map re.compile_word keywords).

Definition default_max_retries : Z := 3.

(** ** [_find_keywords_with_regex] *)
Fixpoint keywords_loop (self : HabrScraper) (i : nat)
         (patterns : list re.pattern) (text : pystr)
         (found_keywords : list pystr) : pyresult (list pystr) :=
  match patterns with
  | [] => Return found_keywords
  | pattern :: rest =>
      if re.search pattern text then
        match nth_error (keywords self) i with
        | Some kw => keywords_loop self (S i) rest text (found_keywords ++ [kw])
        | None => Raise IndexError
        end
      else keywords_loop self (S i) rest text found_keywords
  end.

Definition _find_keywords_with_regex (self : HabrScraper) (text : pystr)
  : pyresult (list pystr) :=
  keywords_loop self 0 (keyword_patterns self) text [].

(** ** [_parse_date] *)
Definition date_formats : list pystr :=
  [py "%Y-%m-%dT%H:%M:%S.%fZ";
   py "%Y-%m-%dT%H:%M:%SZ";
   py "%Y-%m-%d %H:%M:%S";
   py "%Y-%m-%d"].

Definition date_not_found : pystr := py "Дата не найдена".

Section ParseDate.

(** The two library calls; any implementation, raising or not. *)
Variable strptime : pystr -> pystr -> pyresult datetime.t.
Variable strftime : datetime.t -> pystr -> pyresult pystr.

(** The loop over the formats: [Some r] when an iteration returns [r],
    [None] when the loop runs to its end. *)
Fixpoint format_loop (date_str : pystr) (formats : list pystr)
  : pyresult (option pystr) :=
  match formats with
  | [] => Return None
  | fmt :: rest =>
      match (parsed_date <- strptime date_str fmt ;;
             strftime parsed_date (py "%Y-%m-%d")) with
      | Return r => Return (Some r)
      | Raise e =>
          if is_ValueError e then format_loop date_str rest else Raise e
      end
  end.

Definition parse_date_with (date_str : pystr) : pyresult pystr :=
  if is_empty date_str then Return date_not_found
  else
    match format_loop date_str date_formats with
    | Return (Some r) => Return r
    | Return None =>
        Return (if 10 <=? len date_str then slice_to 10 date_str else date_str)
    | Raise e =>                                       (* except Exception *)
        Return (if 10 <=? len date_str then slice_to 10 date_str
                else date_not_found)
    end.

End ParseDate.

(** [strftime] as modelled returns on every date. *)
Definition pure_strftime (d : datetime.t) (format : pystr) : pyresult pystr :=
  Return (datetime.strftime d format).

Definition _parse_date (date_str : pystr) : pyresult pystr :=
  parse_date_with datetime.strptime pure_strftime date_str.

(** ** [_parse_article_preview] *)

(** The stripped, non-empty texts of a list of elements. *)
Definition texts_of (elements : list bs4.node) : list pystr :=
  filter (fun text => negb (is_empty text)) (map bs4.get_text elements).

Definition parse_article_preview_body (self : HabrScraper)
           (article_element : bs4.node) : pyresult (option Article) :=
  match bs4.find article_element "h2" (Some "tm-title"%string) with
  | None => Return None
  | Some title_element =>
  match bs4.find title_element "a" (Some "tm-title__link"%string) with
  | None => Return None
  | Some title_link =>
      let title_span := bs4.find title_link "span" None in
      let title :=
        match title_span with
        | Some span => bs4.get_text span
        | None => bs4.get_text title_link
        end in
      if is_empty title then Return None
      else
        let link := bs4.get title_link (py "href") [] in
        if is_empty link then Return None
        else
          let link :=
            if negb (startswith link (py "http"))
            then py "https://habr.com" ++ link else link in
          let date_element := bs4.find article_element "time" None in
          let date_str :=
            match date_element with
            | Some e => bs4.get e (py "datetime") []
            | None => []
            end in
          formatted_date <- _parse_date date_str ;;
          let all_of := fun (name class_ : string) =>
            texts_of (bs4.find_all article_element name (Some class_)) in
          let preview_parts :=
            [title]
              ++ all_of "div"%string "tm-article-snippet__lead"%string
              ++ all_of "div"%string "tm-article-body"%string
              ++ all_of "a"%string "tm-article-snippet__hubs-item-link"%string
              ++ all_of "a"%string "tm-hub-link"%string
              ++ all_of "a"%string "tm-user-info__username"%string
              ++ [bs4.get_text article_element] in
          let preview_text := join (py " ") preview_parts in
          found_keywords <- _find_keywords_with_regex self preview_text ;;
          if is_empty found_keywords then Return None
          else Return (Some (mkArticle title link formatted_date
                                       preview_text found_keywords))
  end
  end.

(** The whole body runs under [try ... except Exception: return None]. *)
Definition _parse_article_preview (self : HabrScraper)
           (article_element : bs4.node) : option Article :=
  match parse_article_preview_body self article_element with
  | Return r => r
  | Raise _ => None
  end.

(** The loop of [find_articles] over the previews found. *)
Fixpoint articles_loop (self : HabrScraper) (article_elements : list bs4.node)
         (articles : list Article) : list Article :=
  match article_elements with
  | [] => articles
  | article_element :: rest =>
      match _parse_article_preview self article_element with
      | Some article => articles_loop self rest (articles ++ [article])
      | None => articles_loop self rest articles
      end
  end.

Section Run.

(** The network: the outcome of the [n]-th request of the session, and
    the HTML parser. *)
Variable net : nat -> pystr -> pyresult requests.Response.
Variable BeautifulSoup : pystr -> bs4.node.

Definition session_get (url : pystr) (w : world)
  : pyresult requests.Response * world :=
  (net (sent w) url, mkWorld (S (sent w)) (slept w)).

(** ** [_get_page_with_retry]

    The result is [Some text] for a string and [None] for Python's
    [None], which a loop that ends without returning leaves. *)
Fixpoint retry_loop (self : HabrScraper) (url : pystr) (attempts : list Z)
         (w : world) : pyresult (option pystr) * world :=
  match attempts with
  | [] => (Return None, w)
  | attempt :: rest =>
      let (got, w1) := session_get url w in
      match (response <- got ;;
             _ <- requests.raise_for_status response ;;
             Return (requests.text response)) with
      | Return body => (Return (Some body), w1)
      | Raise e =>
          if is_RequestException e then
            if attempt <? max_retries self - 1
            then retry_loop self url rest (sleep (2 ^ attempt) w1)
            else (Return (Some []), w1)
          else (Raise e, w1)
      end
  end.

Definition _get_page_with_retry (self : HabrScraper) (url : pystr) (w : world)
  : pyresult (option pystr) * world :=
  retry_loop self url (range (max_retries self)) w.

(** [not html], for [html] a string or [None]. *)
Definition falsy (html : option pystr) : bool :=
  match html with
  | None => true
  | Some s => is_empty s
  end.

(** ** [find_articles] *)
Definition find_articles (self : HabrScraper) (w : world)
  : pyresult (list Article) * world :=
  let url := py "https://habr.com/ru/all/" in
  let (got, w1) := _get_page_with_retry self url w in
  match got with
  | Raise e => (Raise e, w1)
  | Return html =>
      if falsy html then (Return [], w1)
      else
        let soup :=
          BeautifulSoup (match html with Some s => s | None => [] end) in
        let article_elements :=
          bs4.find_all soup "article" (Some "tm-articles-list__item"%string) in
        (Return (articles_loop self article_elements []), w1)
  end.

End Run.

End Program.

(* ================================================================= *)
(** * Reporting

    [print_articles] and [save_to_file] do not read [self]; they are
    functions of the records. The console is the list of the texts
    printed, one per call to [print]. *)

(** [str(n)] for a count or an index. *)
Definition str_of_nat (n : nat) : pystr :=
  py (NilEmpty.string_of_uint (Nat.to_uint n)).

(** [s * n]. *)
Definition times (s : pystr) (n : nat) : pystr := List.concat (repeat s n).

(** ** [print_articles] *)

(** The loop over [enumerate(articles, 1)]: three calls to [print] for
    each record, the last one printing an empty line. *)
Fixpoint print_loop (i : nat) (articles : list Article) : list pystr :=
  match articles with
  | [] => []
  | article :: rest =>
      let keywords_str := join (py ", ") (found_keywords article) in
      [str_of_nat i ++ py ". " ++ date article ++ py " – " ++ title article
         ++ py " – " ++ link article;
       py "   Найденные ключевые слова: " ++ keywords_str;
       []]
        ++ print_loop (S i) rest
  end.

Definition print_articles (articles : list Article) : list pystr :=
  if is_empty articles
  then [py "Статьи с заданными ключевыми словами не найдены."]
  else
    [py "Найдено статей: " ++ str_of_nat (List.length articles);
     times (py "-") 100]
      ++ print_loop 1 articles.

(** ** [save_to_file] *)

(** The files of the working directory, by name. *)
Definition filesystem := pystr -> option pystr.

Definition write_file (fs : filesystem) (name content : pystr) : filesystem :=
  fun n => if str_eqb n name then Some content else fs n.

(** What the operating system does in a run: whether opening a file for
    writing raises, and whether the [k]-th call to [f.write] does. *)
Record io := mkIo {
  open_w : pystr -> pyresult unit;
  write_k : nat -> pyresult unit
}.

(** The arguments of the calls to [f.write], in order. *)
Fixpoint write_loop (i : nat) (articles : list Article) : list pystr :=
  match articles with
  | [] => []
  | article :: rest =>
      [str_of_nat i ++ py ". " ++ date article ++ py " – " ++ title article
         ++ py " – " ++ link article ++ [10];
       py "   Найденные ключевые слова: "
         ++ join (py ", ") (found_keywords article) ++ [10];
       py "   Превью: " ++ slice_to 200 (preview_text article)
         ++ py "..." ++ [10; 10]]
        ++ write_loop (S i) rest
  end.

Definition report_writes (articles : list Article) : list pystr :=
  [py "Найдено статей: " ++ str_of_nat (List.length articles) ++ [10];
   times (py "=") 100 ++ [10; 10]]
    ++ write_loop 1 articles.

(** The calls to [f.write] inside the [with] block: what was written
    before a call raises stays in the file. *)
Fixpoint write_all (env : io) (k : nat) (chunks : list pystr) (content : pystr)
  : pyresult unit * pystr :=
  match chunks with
  | [] => (Return tt, content)
  | chunk :: rest =>
      match write_k env k with
      | Return _ => write_all env (S k) rest (content ++ chunk)
      | Raise e => (Raise e, content)
      end
  end.

Definition default_filename : pystr := py "habr_articles.txt".

(** The result is the file system after the call and the texts printed;
    every exception is caught and logged. *)
Definition save_to_file (env : io) (fs : filesystem)
           (articles : list Article) (filename : pystr)
  : filesystem * list pystr :=
  match open_w env filename with
  | Raise _ => (fs, [])
  | Return _ =>
      (* mode 'w': the file is created or emptied *)
      let (written, content) := write_all env 0 (report_writes articles) [] in
      let fs' := write_file fs filename content in
      match written with
      | Return _ =>
          (fs', [py "Результаты также сохранены в файл: " ++ filename])
      | Raise _ => (fs', [])
      end
  end.

(** ** [main] *)

Definition banner : list pystr :=
  [times (py "=") 60;
   py "ПОИСК СТАТЕЙ НА ХАБРЕ ПО КЛЮЧЕВЫМ СЛОВАМ";
   times (py "=") 60;
   py "Ключевые слова: " ++ join (py ", ") KEYWORDS;
   py "Используются регулярные выражения для точного поиска";
   py "Логирование ведется в файл: scraper.log";
   []].

Section Main.
Context {U : unicode}.

(** The outcome of [main], the texts printed, the files and the world
    after the run. An exception that leaves [find_articles] leaves [main]
    after the banner. *)
Definition main (net : nat -> pystr -> pyresult requests.Response)
           (BeautifulSoup : pystr -> bs4.node) (env : io)
           (fs : filesystem) (w : world)
  : pyresult unit * list pystr * filesystem * world :=
  let scraper := __init__ KEYWORDS default_max_retries in
  let (found, w1) := find_articles net BeautifulSoup scraper w in
  match found with
  | Raise e => (Raise e, banner, fs, w1)
  | Return articles =>
      let printed := print_articles articles in
      let (fs', saved) := save_to_file env fs articles default_filename in
      (Return tt, banner ++ printed ++ saved, fs', w1)
  end.

End Main.

(* ================================================================= *)
(** * Vocabulary of the specification *)

Section Vocabulary.
Context {U : unicode}.

(** "Case-insensitive": the text [m] is the word [word] up to case, each
    character matching the one of the word as [re.IGNORECASE] has it. *)
Definition same_ignoring_case (m word : pystr) : Prop :=
  Forall2 (fun x c => ci_match x c = true) m word.

(** A word boundary lies between [before] and [after] when exactly one of
    the two characters next to the cut is a word character. *)
Definition word_boundary (before after : pystr) : Prop :=
  re.word_at (re.last_of None before) <> re.word_at (hd_error after).

(** [word] occurs in [text] as a whole word, ignoring case: some
    occurrence of it has a word boundary on either side. *)
Definition occurs_as_whole_word (word text : pystr) : Prop :=
  exists before m after,
    text = before ++ m ++ after
    /\ same_ignoring_case m word
    /\ word_boundary before (m ++ after)
    /\ word_boundary (before ++ m) after.

(** [l] is [full] with some elements left out, the order kept. *)
Inductive subsequence {A} : list A -> list A -> Prop :=
| sub_nil : subsequence [] []
| sub_skip x l full : subsequence l full -> subsequence l (x :: full)
| sub_keep x l full : subsequence l full -> subsequence (x :: l) (x :: full).


(** The matched-keyword property in the wording of the specification:
    the result is a subset of the keyword list [K], in the order of [K],
    each keyword at most once, and it is empty exactly when no word of
    [K] occurs as a whole word of the text. *)
Definition matched_keywords_as_specified (K : list pystr) (T : pystr) : Prop :=
  exists r,
    _find_keywords_with_regex (__init__ K default_max_retries) T = Return r
    /\ incl r K
    /\ subsequence r K
    /\ NoDup r
    /\ (r = [] <-> forall kw, In kw K -> ~ occurs_as_whole_word kw T).

(** The link element of the title of a fragment, the title text read
    from it and the target it carries ([''] when there is no [href]). *)
Definition title_link_of (e : bs4.node) : option bs4.node :=
  match bs4.find e "h2" (Some "tm-title"%string) with
  | Some title_element =>
      bs4.find title_element "a" (Some "tm-title__link"%string)
  | None => None
  end.

Definition title_text_of (title_link : bs4.node) : pystr :=
  match bs4.find title_link "span" None with
  | Some span => bs4.get_text span
  | None => bs4.get_text title_link
  end.

Definition href_of (title_link : bs4.node) : pystr :=
  bs4.get title_link (py "href") [].

(** ** Dates *)

(** The raw string matches one of the recognized formats. *)
Definition recognized (raw : pystr) : Prop :=
  exists fmt d, In fmt date_formats /\ datetime.strptime raw fmt = Return d.

(** [fmt] is the first format of the list, in its order, that [raw]
    matches, and [d] is what it parses to. *)
Definition first_match (raw fmt : pystr) (d : datetime.t) : Prop :=
  exists earlier later,
    date_formats = earlier ++ fmt :: later
    /\ Forall (fun f => exists e, datetime.strptime raw f = Raise e) earlier
    /\ datetime.strptime raw fmt = Return d.

(** Total parse failure: no format matches. *)
Definition unrecognized (raw : pystr) : Prop :=
  forall fmt, In fmt date_formats ->
              exists e, datetime.strptime raw fmt = Raise e.

(** The shape [YYYY-MM-DD]: ten characters, digits around two hyphens. *)
Definition is_YYYY_MM_DD (s : pystr) : bool :=
  match s with
  | [y1; y2; y3; y4; h1; m1; m2; h2; d1; d2] =>
      forallb is_ascii_digit [y1; y2; y3; y4; m1; m2; d1; d2]
      && (h1 =? 45) && (h2 =? 45)
  | _ => false
  end.

(** A calendar date written as [YYYY-MM-DD]. *)
Definition iso_date (y m d : Z) : pystr :=
  datetime.zpad 4 y ++ [45] ++ datetime.zpad 2 m ++ [45] ++ datetime.zpad 2 d.

Definition valid_date (y m d : Z) : Prop :=
  1 <= y <= 9999 /\ 1 <= m <= 12 /\ 1 <= d <= datetime.days_in_month y m.

(** Normalization of a recognized string in the wording of the
    specification: the result has the shape [YYYY-MM-DD]. *)
Definition normalizes_as_specified (raw : pystr) : Prop :=
  recognized raw ->
  exists out, _parse_date raw = Return out /\ is_YYYY_MM_DD out = true.

(** The least number of characters a pattern can match. *)
Definition least (l : list nat) : nat :=
  match l with
  | [] => 0
  | x :: l' => fold_right Nat.min x l'
  end.

Definition item_min (it : re.item) : nat :=
  match it with
  | re.Lit _ => 1
  | re.Boundary => 0
  | re.Spaces => 1
  | re.Group _ alts => least (map (@List.length re.cls) alts)
  | re.GroupRep _ _ lo _ => lo
  end.

Definition min_len (p : re.pattern) : nat :=
  fold_right (fun it n => (item_min it + n)%nat) 0%nat p.

(** ** Fetching *)

(** An attempt fails when the request raises a [RequestException]
    (network error, timeout) or the response has an error status. *)
Definition attempt_fails (r : pyresult requests.Response) : Prop :=
  match r with
  | Raise e => is_RequestException e = true
  | Return response => between 400 599 (requests.status_code response) = true
  end.

Definition attempt_succeeds (r : pyresult requests.Response) (body : pystr)
  : Prop :=
  exists response,
    r = Return response
    /\ between 400 599 (requests.status_code response) = false
    /\ requests.text response = body.

(** The backoff property in the wording of the specification: three
    failures, then a success, give the body after sleeping 1 + 2 + 4. *)
Definition backoff_as_specified
           (net : nat -> pystr -> pyresult requests.Response)
           (self : HabrScraper) (url : pystr) (w : world) (body : pystr)
  : Prop :=
  (forall i, (i < 3)%nat -> attempt_fails (net (sent w + i)%nat url)) ->
  attempt_succeeds (net (sent w + 3)%nat url) body ->
  exists w',
    _get_page_with_retry net self url w = (Return (Some body), w')
    /\ total_slept w' = total_slept w + 7.

(** ** Records and fragments *)

Definition to_list {A} (o : option A) : list A :=
  match o with Some a => [a] | None => [] end.

Definition complete (a : Article) : Prop :=
  title a <> [] /\ link a <> [] /\ found_keywords a <> [].

(** A fragment that fails a mandatory extraction step. *)
Inductive malformed (e : bs4.node) : Prop :=
| missing_title :
    bs4.find e "h2" (Some "tm-title"%string) = None -> malformed e
| missing_link :
    (exists title_element,
        bs4.find e "h2" (Some "tm-title"%string) = Some title_element)
    -> title_link_of e = None -> malformed e
| empty_title title_link :
    title_link_of e = Some title_link ->
    title_text_of title_link = [] -> malformed e
| missing_href title_link :
    title_link_of e = Some title_link ->
    href_of title_link = [] -> malformed e.

(** A URI scheme: a letter, then letters, digits, [+], [-] or [.], up to
    a colon. *)
Definition is_alpha (c : char) : bool := between 65 90 c || between 97 122 c.

Fixpoint scheme_tail (s : pystr) : bool :=
  match s with
  | [] => false
  | c :: s' =>
      if c =? 58 then true
      else if is_alpha c || is_ascii_digit c || (c =? 43) || (c =? 45)
              || (c =? 46)
           then scheme_tail s'
           else false
  end.

Definition starts_with_uri_scheme (href : pystr) : bool :=
  match href with
  | c :: s => is_alpha c && scheme_tail s
  | [] => false
  end.

(** Link resolution in the wording of the specification. *)
Definition link_resolution_as_specified (self : HabrScraper) (e : bs4.node)
  : Prop :=
  forall a title_link,
    _parse_article_preview self e = Some a ->
    title_link_of e = Some title_link ->
    link a = if starts_with_uri_scheme (href_of title_link)
             then href_of title_link
             else py "https://habr.com" ++ href_of title_link.


(** ** What every table has in common

    The properties of dates and keywords below that depend on the tables
    name what they need of them. Each of these holds of the tables of
    every Python 3 and of the year format of every platform. *)

Definition ascii_lower (c : char) : char :=
  if between 65 90 c then c + 32 else c.

(** Among the ASCII characters the decimal digits are [0-9], with their
    usual values. *)
Definition ascii_digits : Prop :=
  forall c, 0 <= c < 128 ->
            is_digit c = is_ascii_digit c
            /\ (is_ascii_digit c = true -> digit_value c = c - 48).

(** Between ASCII characters, ignoring case is ignoring the case of the
    letters [A-Z]. *)
Definition ascii_ignorecase : Prop :=
  forall x c, 0 <= x < 128 -> 0 <= c < 128 ->
              ci_match x c = (ascii_lower x =? ascii_lower c).

(** The space is no word character. *)
Definition space_is_no_word : Prop := is_word 32 = false.

(** Lower-casing a lower-cased string changes nothing. *)
Definition lower_idempotent : Prop := forall s, lower (lower s) = lower s.

(** A year is written with four digits, zero-padded, or, below 1000 and
    where the platform does not pad, with fewer characters. *)
Definition year_padded_or_short : Prop :=
  forall y, 1 <= y <= 9999 ->
            format_year y = datetime.zpad 4 y
            \/ (y < 1000 /\ (List.length (format_year y) < 4)%nat).

End Vocabulary.

(** ** Further vocabulary *)

Section MoreVocabulary.
Context {U : unicode}.

(** The delays of the retries number [a], [a + 1], ..., [a + k - 1]. *)
Definition delays_from (a k : nat) : list Z :=
  map (fun i => 2 ^ Z.of_nat i) (seq a k).

(** The fragments [find_articles] looks at. *)
Definition fragments_of (soup : bs4.node) : list bs4.node :=
  bs4.find_all soup "article" (Some "tm-articles-list__item"%string).

(** An operating system on which every file operation works. *)
Definition io_ok : io := mkIo (fun _ => Return tt) (fun _ => Return tt).

Definition empty_fs : filesystem := fun _ => None.

(** The names of the groups of a pattern. *)
Definition group_names (p : re.pattern) : list pystr :=
  flat_map (fun it => match it with
                      | re.Group name _ => [name]
                      | re.GroupRep name _ _ _ => [name]
                      | _ => []
                      end) p.

(** The groups of a date read from its zero-padded form. *)
Definition date_groups (y m d : Z) : re.groupdict :=
  [(py "d", datetime.zpad 2 d); (py "m", datetime.zpad 2 m);
   (py "Y", datetime.zpad 4 y)].

(** What may follow the month or the day in a format, a literal [-] or
    [T] or white space, does not start at a digit. *)
Definition stops_at_digit {R} (k : pystr -> pystr -> option R) : Prop :=
  forall a b rest, is_ascii_digit b = true -> k [a] (b :: rest) = None.

(** Every format starts with the date; [date_items] is the compiled
    [%Y-%m-%d] and [format_tail] what a format adds to it. *)
Definition date_items : re.pattern :=
  Eval vm_compute in
    match datetime.pattern (py "%Y-%m-%d") with
    | Return p => p
    | Raise _ => []
    end.

Definition format_tail (fmt : pystr) : re.pattern :=
  match datetime.pattern fmt with
  | Return p => skipn 5 p
  | Raise _ => []
  end.

Definition after_date (tail : re.pattern) : Prop :=
  tail = [] \/ (exists p, tail = re.Lit 84 :: p)
  \/ (exists p, tail = re.Spaces :: p).

(** The machine-readable time stamp of a fragment: the [datetime]
    attribute of its first [time] element, [''] when either is missing. *)
Definition datetime_of (e : bs4.node) : pystr :=
  match bs4.find e "time" None with
  | Some time_element => bs4.get time_element (py "datetime") []
  | None => []
  end.

(** The keywords of [K], lower-cased, that occur in a text as whole
    words, in the order of [K]. *)
Definition occurring (K : list pystr) (text : pystr) : list pystr :=
  filter (fun kw => re.search (re.compile_word kw) text) (map lower K).

(** ** Reports *)

(** The three texts printed for the record numbered [i]. *)
Definition entry_line (i : nat) (a : Article) : pystr :=
  str_of_nat i ++ py ". " ++ date a ++ py " – " ++ title a
    ++ py " – " ++ link a.

Definition keywords_line (a : Article) : pystr :=
  py "   Найденные ключевые слова: " ++ join (py ", ") (found_keywords a).

(** The excerpt written for a record. *)
Definition preview_line (a : Article) : pystr :=
  py "   Превью: " ++ slice_to 200 (preview_text a) ++ py "..." ++ [10; 10].

Definition not_found_message : pystr :=
  py "Статьи с заданными ключевыми словами не найдены.".

Definition saved_message (filename : pystr) : pystr :=
  py "Результаты также сохранены в файл: " ++ filename.

(** The text of the report file. *)
Definition report_text (articles : list Article) : pystr :=
  List.concat (report_writes articles).

(** A text without white space at either end. *)
Definition trimmed (s : pystr) : Prop :=
  match hd_error s with Some c => is_space c = false | None => True end
  /\ match re.last_of None s with
     | Some c => is_space c = false
     | None => True
     end.

End MoreVocabulary.

(* ================================================================= *)
(** * Samples *)

(** ** Sample tables

    Tables for the examples. They are those of Python on Basic Latin,
    Latin-1 and the Cyrillic letters U+0400 to U+045F, where the texts of
    the examples are; [sample_tables] pads the year and
    [unpadded_tables] does not. *)
Definition sample_is_word (c : char) : bool :=
  between 48 57 c || between 65 90 c || (c =? 95) || between 97 122 c
  || (c =? 170) || between 178 179 c || (c =? 181) || between 185 186 c
  || between 188 190 c || between 192 214 c || between 216 246 c
  || between 248 255 c
  || between 1024 1153 c || between 1162 1327 c.

Definition sample_tolower (c : char) : char :=
  if between 65 90 c then c + 32
  else if between 192 214 c || between 216 222 c then c + 32
  else if between 1040 1071 c then c + 32
  else if between 1024 1039 c then c + 80
  else c.

Definition sample_tables : unicode := {|
  is_word := sample_is_word;
  is_digit := is_ascii_digit;
  digit_value := fun c => c - 48;
  ci_match := fun x c => sample_tolower x =? sample_tolower c;
  lower := map sample_tolower;
  format_year := datetime.zpad 4
|}.

(** The digits of a number without its leading zeros. *)
Fixpoint drop_zeros (s : pystr) : pystr :=
  match s with
  | c :: s' => if (c =? 48) && negb (is_empty s') then drop_zeros s' else s
  | [] => []
  end.

Definition unpadded_tables : unicode := {|
  is_word := sample_is_word;
  is_digit := is_ascii_digit;
  digit_value := fun c => c - 48;
  ci_match := fun x c => sample_tolower x =? sample_tolower c;
  lower := map sample_tolower;
  format_year := fun y => drop_zeros (datetime.zpad 4 y)
|}.

(** ** Sample inputs *)

Definition scraper : HabrScraper :=
  __init__ (U := sample_tables) KEYWORDS default_max_retries.

(** A preview in the markup of the listing page. *)
Definition preview (href datetime_ text : string) : bs4.node :=
  bs4.Tag (py "article") [(py "class", py "tm-articles-list__item")]
    [bs4.Tag (py "h2") [(py "class", py "tm-title tm-title_h2")]
       [bs4.Tag (py "a")
          [(py "href", py href); (py "class", py "tm-title__link")]
          [bs4.Tag (py "span") []
             [bs4.NavigableString (py " Учим Python быстро ")]]];
     bs4.Tag (py "time") [(py "datetime", py datetime_)]
       [bs4.NavigableString (py "17 мая")];
     bs4.Tag (py "div") [(py "class", py "tm-article-body")]
       [bs4.NavigableString (py text)]].

Definition python_article : bs4.node :=
  preview "/ru/articles/123/" "2024-05-17T09:15:42.000Z" "pythonic web-сервис".

Definition ftp_article : bs4.node :=
  preview "ftp://example.org/a" "2024-05-17" "python".

(** A preview whose title link carries no [href]. *)
Definition no_href_article : bs4.node :=
  bs4.Tag (py "article") [(py "class", py "tm-articles-list__item")]
    [bs4.Tag (py "h2") [(py "class", py "tm-title")]
       [bs4.Tag (py "a") [(py "class", py "tm-title__link")]
          [bs4.NavigableString (py "python")]]].

Definition ok_response (body : string) : pyresult requests.Response :=
  Return (requests.mk 200 (Some (py "text/html; charset=utf-8")) (py body)).

(** Three failures (a timeout, a 503, a refused connection), then a page. *)
Definition flaky_net (n : nat) (url : pystr) : pyresult requests.Response :=
  match n with
  | 0%nat => Raise Timeout
  | 1%nat => Return (requests.mk 503 None [])
  | 2%nat => Raise ConnectionError
  | _ => ok_response "<html></html>"
  end.

Definition down_net (n : nat) (url : pystr) : pyresult requests.Response :=
  Raise ConnectionError.

Definition no_parser (html : pystr) : bs4.node := bs4.Tag [] [] [].

(** A preview without [time] element. *)
Definition no_time_article : bs4.node :=
  bs4.Tag (py "article") [(py "class", py "tm-articles-list__item")]
    [bs4.Tag (py "h2") [(py "class", py "tm-title")]
       [bs4.Tag (py "a")
          [(py "href", py "/ru/articles/7/"); (py "class", py "tm-title__link")]
          [bs4.NavigableString (py "Учим Python быстро")]]].

(* ================================================================= *)
(** * Properties

    Every property is proved for arbitrary tables [U]; what a property
    needs of them is among its hypotheses. *)

Section Properties.
Context {U : unicode}.

(** ** Characters and strings *)

Lemma str_eqb_eq a b : str_eqb a b = true <-> a = b.
Proof.
  revert b; induction a as [|x a IH]; intros [|y b]; simpl; split;
    try congruence; try reflexivity.
  - intros H. apply andb_true_iff in H as [H1 H2].
    apply Z.eqb_eq in H1. apply IH in H2. congruence.
  - intros H. injection H as -> ->. rewrite Z.eqb_refl. simpl. now apply IH.
Qed.

Lemma is_empty_true {A} (l : list A) : is_empty l = true <-> l = [].
Proof. destruct l; simpl; split; congruence. Qed.

Lemma is_empty_false {A} (l : list A) : is_empty l = false <-> l <> [].
Proof. destruct l; simpl; split; congruence. Qed.

Lemma bind_Return {A B} (m : pyresult A) (f : A -> pyresult B) b :
  bind m f = Return b -> exists a, m = Return a /\ f a = Return b.
Proof. destruct m; simpl; intros H; [eauto | discriminate]. Qed.

(** ** Matching a keyword pattern *)

Lemma last_of_app prev a b :
  re.last_of prev (a ++ b) = re.last_of (re.last_of prev a) b.
Proof. unfold re.last_of. apply fold_left_app. Qed.

(** A run of literals matches exactly the texts equal to it up to case. *)
Lemma rmatch_literals kw q prev s gd r :
  re.rmatch (map re.Lit kw ++ q) prev s gd = Some r <->
  exists m after,
    s = m ++ after /\ same_ignoring_case m kw
    /\ re.rmatch q (re.last_of prev m) after gd = Some r.
Proof.
  unfold same_ignoring_case.
  revert prev s; induction kw as [|c kw IH]; intros prev s; simpl.
  - split.
    + intros H. exists [], s. auto.
    + intros (m & after & -> & Hm & H). inversion Hm; subst. exact H.
  - destruct s as [|x s].
    + split; [discriminate|].
      intros (m & after & Hs & Hm & _). inversion Hm; subst. discriminate.
    + destruct (ci_match x c) eqn:E.
      * rewrite IH. split.
        -- intros (m & after & -> & Hm & H).
           exists (x :: m), after. simpl. repeat split; auto.
        -- intros (m & after & Hs & Hm & H).
           inversion Hm as [|y c' m' kw' Hy Hm']; subst.
           simpl in Hs. injection Hs as <- ->.
           exists m', after. auto.
      * split; [discriminate|].
        intros (m & after & Hs & Hm & _).
        inversion Hm as [|y c' m' kw' Hy Hm']; subst.
        simpl in Hs. injection Hs as <- ->. congruence.
Qed.

Lemma at_boundary_true prev s :
  re.at_boundary prev s = true <-> re.word_at prev <> re.word_at (hd_error s).
Proof.
  unfold re.at_boundary.
  destruct (re.word_at prev), (re.word_at (hd_error s)); simpl;
    split; congruence.
Qed.

(** A compiled keyword matches at a position exactly when an occurrence
    delimited by two word boundaries starts there. *)
Lemma rmatch_compile_word kw before s :
  (exists r, re.rmatch (re.compile_word kw) (re.last_of None before) s [] = Some r)
  <->
  exists m after,
    s = m ++ after /\ same_ignoring_case m kw
    /\ word_boundary before (m ++ after)
    /\ word_boundary (before ++ m) after.
Proof.
  unfold re.compile_word, word_boundary. simpl.
  destruct (re.at_boundary (re.last_of None before) s) eqn:B.
  - apply at_boundary_true in B. split.
    + intros (r & H). apply rmatch_literals in H as (m & after & -> & Hm & H).
      simpl in H.
      destruct (re.at_boundary _ after) eqn:B2; [|discriminate].
      apply at_boundary_true in B2.
      exists m, after. rewrite last_of_app. auto.
    + intros (m & after & -> & Hm & _ & B2).
      rewrite last_of_app in B2. apply at_boundary_true in B2.
      exists (after, []). apply rmatch_literals.
      exists m, after. simpl. rewrite B2. auto.
  - split; [intros (r & H); discriminate|].
    intros (m & after & -> & _ & B1 & _).
    apply at_boundary_true in B1. congruence.
Qed.

Lemma search_from_spec p before s :
  re.search_from p (re.last_of None before) s = true <->
  exists skipped rest,
    s = skipped ++ rest
    /\ exists r, re.rmatch p (re.last_of None (before ++ skipped)) rest [] = Some r.
Proof.
  revert before; induction s as [|c s IH]; intros before; simpl.
  - destruct (re.rmatch p (re.last_of None before) [] []) eqn:E.
    + split; [|reflexivity]. intros _. exists [], [].
      rewrite (app_nil_r before). split; [reflexivity | eauto].
    + split; [discriminate|].
      intros (skipped & rest & Hs & r & H).
      symmetry in Hs. apply app_eq_nil in Hs as [-> ->].
      rewrite app_nil_r in H. congruence.
  - destruct (re.rmatch p (re.last_of None before) (c :: s) []) eqn:E.
    + split; [|reflexivity]. intros _. exists [], (c :: s).
      rewrite (app_nil_r before). split; [reflexivity | eauto].
    + change (Some c) with (re.last_of (re.last_of None before) [c]).
      rewrite <- last_of_app, IH. split.
      * intros (skipped & rest & -> & r & H).
        exists (c :: skipped), rest. split; [reflexivity|].
        rewrite <- app_assoc in H. eauto.
      * intros (skipped & rest & Hs & r & H).
        destruct skipped as [|x skipped].
        -- simpl in Hs. subst rest. rewrite app_nil_r in H. congruence.
        -- simpl in Hs. injection Hs as <- ->.
           exists skipped, rest. split; [reflexivity|].
           rewrite <- app_assoc. eauto.
Qed.

(** [search] with a compiled keyword decides "occurs as a whole word". *)
Lemma search_compile_word kw text :
  re.search (re.compile_word kw) text = true <-> occurs_as_whole_word kw text.
Proof.
  unfold re.search, occurs_as_whole_word.
  change (@None char) with (re.last_of None []) at 1.
  rewrite search_from_spec. simpl. split.
  - intros (skipped & rest & -> & H).
    apply rmatch_compile_word in H as (m & after & -> & H).
    exists skipped, m, after. auto.
  - intros (before & m & after & -> & H).
    exists before, (m ++ after). split; [reflexivity|].
    apply rmatch_compile_word. exists m, after. auto.
Qed.


(** ** [_parse_article_preview]: what a record says about its fragment *)

Lemma parse_article_preview_inv self e a :
  _parse_article_preview self e = Some a ->
  exists title_element title_link,
    bs4.find e "h2" (Some "tm-title"%string) = Some title_element
    /\ bs4.find title_element "a" (Some "tm-title__link"%string)
       = Some title_link
    /\ title a = title_text_of title_link
    /\ title a <> []
    /\ href_of title_link <> []
    /\ link a = (if startswith (href_of title_link) (py "http")
                 then href_of title_link
                 else py "https://habr.com" ++ href_of title_link)
    /\ _find_keywords_with_regex self (preview_text a)
       = Return (found_keywords a)
    /\ found_keywords a <> [].
Proof.
  unfold _parse_article_preview, parse_article_preview_body.
  destruct (bs4.find e "h2" _) as [title_element|] eqn:E1; [|discriminate].
  destruct (bs4.find title_element "a" _) as [title_link|] eqn:E2;
    [|discriminate].
  fold (title_text_of title_link). fold (href_of title_link).
  destruct (is_empty (title_text_of title_link)) eqn:Et; [discriminate|].
  destruct (is_empty (href_of title_link)) eqn:Eh; [discriminate|].
  destruct (_parse_date _) as [formatted_date|]; [|discriminate].
  cbv beta iota zeta delta [bind].
  match goal with
  | |- context [_find_keywords_with_regex self ?t] =>
      remember t as preview eqn:Hpreview;
      destruct (_find_keywords_with_regex self preview) as [found|] eqn:Ef
  end; [|discriminate].
  destruct (is_empty found) eqn:Ee; [discriminate|].
  intros H. injection H as <-. cbn [title link preview_text found_keywords].
  apply is_empty_false in Et, Eh, Ee.
  exists title_element, title_link.
  repeat split; auto.
  destruct (startswith (href_of title_link) (py "http")); reflexivity.
Qed.

(** ** [_find_keywords_with_regex] *)

Lemma subsequence_filter {A} (f : A -> bool) l : subsequence (filter f l) l.
Proof.
  induction l as [|x l IH]; simpl; [constructor|].
  destruct (f x); now constructor.
Qed.

Lemma filter_nil_iff {A} (f : A -> bool) l :
  filter f l = [] <-> forall x, In x l -> f x = false.
Proof.
  induction l as [|x l IH]; simpl.
  - split; [intros _ y [] | reflexivity].
  - destruct (f x) eqn:E.
    + split; [discriminate|]. intros H. specialize (H x (or_introl eq_refl)).
      congruence.
    + rewrite IH. split.
      * intros H y [<-|Hy]; auto.
      * intros H y Hy. auto.
Qed.

(** The loop reads the keyword stored at the index of each pattern. *)
Lemma keywords_loop_filter self text rest : forall done found,
  keywords self = done ++ rest ->
  keywords_loop self (List.length done) (map re.compile_word rest) text found
  = Return (found
            ++ filter (fun kw => re.search (re.compile_word kw) text) rest).
Proof.
  induction rest as [|kw rest IH]; intros done found Hk; simpl.
  - now rewrite app_nil_r.
  - assert (Hk' : keywords self = (done ++ [kw]) ++ rest)
      by (rewrite <- app_assoc; exact Hk).
    assert (Hlen : S (List.length done) = List.length (done ++ [kw]))
      by (rewrite length_app; simpl; lia).
    destruct (re.search (re.compile_word kw) text).
    + rewrite Hk, nth_error_app2, Nat.sub_diag by lia. simpl.
      rewrite Hlen, (IH _ _ Hk'), <- app_assoc. reflexivity.
    + rewrite Hlen. apply (IH _ _ Hk').
Qed.

Lemma find_keywords_init K n text :
  _find_keywords_with_regex (__init__ K n) text
  = Return (filter (fun kw => re.search (re.compile_word kw) text)
                   (map lower K)).
Proof.
  unfold _find_keywords_with_regex, __init__. simpl.
  apply (keywords_loop_filter _ text (map lower K) [] []). reflexivity.
Qed.

(** C2 (as amended). For every keyword list [K] and text [T] the matched
    keywords are a subsequence of the lower-cased keyword list (the order
    of [K] is kept, each configured entry is used at most once, so there
    is no repetition when the lower-cased list has none), and the result
    is empty exactly when no lower-cased word of [K] occurs in [T] as a
    whole word, ignoring case. *)
Theorem find_keywords_subsequence_of_lowered K n T :
  exists r,
    _find_keywords_with_regex (__init__ K n) T = Return r
    /\ subsequence r (map lower K)
    /\ (NoDup (map lower K) -> NoDup r)
    /\ (r = [] <-> forall kw, In kw K -> ~ occurs_as_whole_word (lower kw) T).
Proof.
  eexists. split; [apply find_keywords_init|].
  split; [apply subsequence_filter|].
  split; [apply NoDup_filter|].
  rewrite filter_nil_iff. split.
  - intros H kw Hkw Hocc.
    apply (proj2 (search_compile_word _ _)) in Hocc.
    rewrite (H (lower kw)) in Hocc; [discriminate|].
    now apply in_map.
  - intros H x Hx. apply in_map_iff in Hx as (kw & <- & Hkw).
    destruct (re.search _ T) eqn:E; [|reflexivity].
    apply (proj1 (search_compile_word _ _)) in E.
    exfalso. exact (H kw Hkw E).
Qed.


(** ** The [re] engine: what a successful match consumed *)

Lemma match_alt_inv a : forall s m rest,
  re.match_alt a s = Some (m, rest) ->
  s = m ++ rest /\ List.length m = List.length a.
Proof.
  induction a as [|k a IH]; intros s m rest; simpl.
  - intros H. injection H as <- <-. auto.
  - destruct s as [|c s]; [discriminate|].
    destruct (re.cls_match k c); [|discriminate].
    destruct (re.match_alt a s) as [[m' rest']|] eqn:E; [|discriminate].
    intros H. injection H as <- <-.
    apply IH in E as [-> E]. simpl. auto.
Qed.

Lemma match_alt_exact a : forall m s,
  Forall2 (fun k c => re.cls_match k c = true) a m ->
  re.match_alt a (m ++ s) = Some (m, s).
Proof.
  induction a as [|k a IH]; intros m s H; inversion H; subst; simpl.
  - reflexivity.
  - match goal with Hc : re.cls_match _ _ = true |- _ => rewrite Hc end.
    now rewrite IH.
Qed.

Lemma or_else_Some {R} (x y : option R) r :
  re.or_else x y = Some r -> x = Some r \/ y = Some r.
Proof. destruct x; simpl; auto. Qed.

Lemma first_alt_inv {R} alts s (k : pystr -> pystr -> option R) x :
  re.first_alt alts s k = Some x ->
  exists a m rest,
    In a alts /\ re.match_alt a s = Some (m, rest) /\ k m rest = Some x.
Proof.
  induction alts as [|a alts IH]; simpl; [discriminate|].
  intros H. apply or_else_Some in H as [H|H].
  - destruct (re.match_alt a s) as [[m rest]|] eqn:E; [|discriminate].
    exists a, m, rest. auto.
  - apply IH in H as (a' & m & rest & Ha & H). exists a', m, rest. auto.
Qed.

Lemma repeat_greedy_inv {R} c lo (k : pystr -> pystr -> option R) x :
  forall n acc s,
    re.repeat_greedy c lo n acc s k = Some x ->
    exists taken rest,
      s = taken ++ rest
      /\ (lo <= List.length (acc ++ taken))%nat
      /\ k (acc ++ taken) rest = Some x.
Proof.
  assert (Hstop : forall acc s,
             (if (lo <=? List.length acc)%nat then k acc s else None) = Some x ->
             exists taken rest,
               s = taken ++ rest
               /\ (lo <= List.length (acc ++ taken))%nat
               /\ k (acc ++ taken) rest = Some x).
  { intros acc s H.
    destruct (lo <=? List.length acc)%nat eqn:E; [|discriminate].
    apply Nat.leb_le in E. exists [], s. rewrite app_nil_r. auto. }
  induction n as [|n IH]; intros acc s; simpl.
  - apply Hstop.
  - destruct s as [|y s]; [apply Hstop|].
    destruct (re.cls_match c y); [|apply Hstop].
    intros H. apply or_else_Some in H as [H|H]; [|now apply Hstop].
    apply IH in H as (taken & rest & -> & Hlo & H).
    rewrite <- app_assoc in Hlo, H.
    exists (y :: taken), rest. auto.
Qed.

Lemma spaces_greedy_inv {R} (k : char -> pystr -> option R) x :
  forall s taken,
    re.spaces_greedy taken s k = Some x ->
    exists c rest,
      k c rest = Some x
      /\ (List.length rest
          + (match taken with Some _ => 0 | None => 1 end)
          <= List.length s)%nat.
Proof.
  induction s as [|y s IH]; intros taken; simpl.
  - destruct taken as [c|]; [|discriminate].
    intros H. exists c, []. auto.
  - assert (Hstop : match taken with Some c => k c (y :: s) | None => None end
                    = Some x ->
                    exists c rest,
                      k c rest = Some x
                      /\ (List.length rest
                          + (match taken with Some _ => 0 | None => 1 end)
                          <= S (List.length s))%nat).
    { destruct taken as [c|]; [|discriminate].
      intros H. exists c, (y :: s). simpl. split; [exact H | lia]. }
    destruct (is_space y); [|exact Hstop].
    intros H. apply or_else_Some in H as [H|H]; [|now apply Hstop].
    apply IH in H as (c & rest & H & Hlen).
    exists c, rest. split; [exact H|]. destruct taken; simpl in *; lia.
Qed.

Lemma least_le l x : In x l -> (least l <= x)%nat.
Proof.
  destruct l as [|y l]; [intros []|]. simpl.
  revert y; induction l as [|z l IH]; intros y; simpl.
  - intros [<-|[]]. lia.
  - intros [<-|[<-|H]].
    + specialize (IH y (or_introl eq_refl)). lia.
    + lia.
    + specialize (IH y (or_intror H)). lia.
Qed.

(** A match consumes at least [min_len p] characters. *)
Lemma rmatch_min_len p : forall prev s gd rest gd',
  re.rmatch p prev s gd = Some (rest, gd') ->
  (List.length rest + min_len p <= List.length s)%nat.
Proof.
  induction p as [|it p IH]; intros prev s gd rest gd'.
  - simpl. intros H. injection H as <- _. lia.
  - destruct it as [c| | |name alts|name c lo hi];
      cbn [re.rmatch min_len fold_right item_min]; fold (min_len p).
    + destruct s as [|x s]; [discriminate|].
      destruct (ci_match x c); [|discriminate].
      intros H. apply IH in H. simpl. lia.
    + destruct (re.at_boundary prev s); [|discriminate].
      intros H. apply IH in H. lia.
    + intros H. apply spaces_greedy_inv in H as (c & rest' & H & Hlen).
      apply IH in H. lia.
    + intros H. apply first_alt_inv in H as (a & m & rest' & Ha & Hm & H).
      apply IH in H. apply match_alt_inv in Hm as [-> Hm].
      assert (least (map (@List.length re.cls) alts) <= List.length a)%nat
        by (apply least_le, in_map, Ha).
      rewrite length_app. lia.
    + intros H. apply repeat_greedy_inv in H as (taken & rest' & -> & Hlo & H).
      apply IH in H. simpl in Hlo. rewrite length_app. lia.
Qed.

(** ** [strptime] and [strftime] *)

Lemma pattern_from_raises_upto n : forall format after_space e,
  (List.length format <= n)%nat ->
  datetime.pattern_from after_space format = Raise e -> e = ValueError.
Proof.
  induction n as [|n IH]; intros format after_space e Hn;
    destruct format as [|c format]; try discriminate; simpl in Hn; [lia|].
  simpl. destruct (c =? datetime.chr "%").
  - destruct format as [|d format]; [congruence|].
    destruct (datetime.directive d); [|congruence].
    destruct (datetime.pattern_from false format) eqn:E; [discriminate|].
    simpl. intros H. injection H as <-.
    apply IH in E; [exact E | simpl in Hn; lia].
  - destruct (is_space c).
    + destruct after_space.
      * apply IH. lia.
      * destruct (datetime.pattern_from true format) eqn:E; [discriminate|].
        simpl. intros H. injection H as <-.
        apply IH in E; [exact E | lia].
    + destruct (datetime.pattern_from false format) eqn:E; [discriminate|].
      simpl. intros H. injection H as <-.
      apply IH in E; [exact E | lia].
Qed.

Lemma pattern_raises format e :
  datetime.pattern format = Raise e -> e = ValueError.
Proof. apply (pattern_from_raises_upto (List.length format)). lia. Qed.

Lemma int_raises s e : datetime.int s = Raise e -> e = ValueError.
Proof.
  unfold datetime.int. destruct (strip s); [congruence|].
  destruct (datetime.digits_value _ _); [discriminate | congruence].
Qed.

Lemma field_raises gd name default e :
  datetime.field gd name default = Raise e -> e = ValueError.
Proof.
  unfold datetime.field. destruct (re.get gd _); [apply int_raises | discriminate].
Qed.

Lemma new_raises y m d H M S us e :
  datetime.new y m d H M S us = Raise e -> e = ValueError.
Proof. unfold datetime.new. destruct (_ && _); [discriminate | congruence]. Qed.

Ltac bind_raises H lem :=
  match type of H with
  | bind ?m _ = Raise _ =>
      let E := fresh "E" in
      destruct m eqn:E; simpl in H;
      [| injection H as <-; apply lem in E; exact E]
  end.

(** [strptime] fails with [ValueError] and nothing else. *)
Lemma strptime_raises s format e :
  datetime.strptime s format = Raise e -> e = ValueError.
Proof.
  unfold datetime.strptime. intros H.
  bind_raises H pattern_raises.
  destruct (re.match_ _ s) as [[rest gd]|]; [|congruence].
  destruct (negb (is_empty rest)); [congruence|].
  do 6 bind_raises H field_raises.
  unfold datetime.fraction in H.
  destruct (re.get gd (py "f")).
  - bind_raises H int_raises. now apply new_raises in H.
  - simpl in H. now apply new_raises in H.
Qed.

Lemma new_valid y m d H M S us dt :
  datetime.new y m d H M S us = Return dt ->
  dt = datetime.mk y m d H M S us /\ valid_date y m d.
Proof.
  unfold datetime.new, valid_date, between.
  destruct (_ && _) eqn:E; [|discriminate].
  intros Hdt. injection Hdt as <-. split; [reflexivity|].
  repeat (apply andb_true_iff in E as [E ?]). lia.
Qed.

(** A parsed date is a date of the calendar. *)
Lemma strptime_valid s format dt :
  datetime.strptime s format = Return dt ->
  valid_date (datetime.year dt) (datetime.month dt) (datetime.day dt).
Proof.
  unfold datetime.strptime. intros H.
  apply bind_Return in H as (p & _ & H).
  destruct (re.match_ p s) as [[rest gd]|]; [|discriminate].
  destruct (negb (is_empty rest)); [discriminate|].
  do 7 (apply bind_Return in H as (? & _ & H)).
  apply new_valid in H as [-> H]. exact H.
Qed.

(** Decide the comparisons of a goal, one at a time, dropping the cases
    the context excludes. *)
Ltac decide_comparisons :=
  repeat match goal with
         | |- context [?a <=? ?b] => destruct (Z.leb_spec a b); try lia
         | |- context [?a <? ?b] => destruct (Z.ltb_spec a b); try lia
         | |- context [?a =? ?b] => destruct (Z.eqb_spec a b); try lia
         end;
  try reflexivity.

Lemma between_true lo hi c : between lo hi c = true <-> lo <= c <= hi.
Proof. unfold between. rewrite andb_true_iff, !Z.leb_le. reflexivity. Qed.

Lemma digit_char v : is_ascii_digit (48 + v mod 10) = true.
Proof.
  pose proof (Z.mod_pos_bound v 10 ltac:(lia)).
  apply between_true. lia.
Qed.

(** What the tables say of the digits [0-9]. *)
Lemma ascii_digit_is_digit c :
  ascii_digits -> is_ascii_digit c = true ->
  is_digit c = true /\ digit_value c = c - 48.
Proof.
  intros Hd Hc. pose proof (proj1 (between_true _ _ _) Hc) as Hr.
  destruct (Hd c ltac:(lia)) as [H1 H2]. rewrite H1. auto.
Qed.

Lemma hyphen_is_no_digit : ascii_digits -> is_digit 45 = false.
Proof. intros Hd. now rewrite (proj1 (Hd 45 ltac:(lia))). Qed.

Lemma digit_not_space c : is_ascii_digit c = true -> is_space c = false.
Proof.
  intros H. apply between_true in H.
  unfold is_space, between. decide_comparisons.
Qed.

Lemma zpad_digits w :
  forall v, Forall (fun c => is_ascii_digit c = true) (datetime.zpad w v).
Proof.
  induction w as [|w IH]; intros v; simpl; [constructor|].
  apply Forall_app. split; [apply IH|].
  constructor; [apply digit_char | constructor].
Qed.

Lemma zpad_length w : forall v, List.length (datetime.zpad w v) = w.
Proof.
  induction w as [|w IH]; intros v; simpl; [reflexivity|].
  rewrite length_app, IH. simpl. lia.
Qed.

Lemma lstrip_no_space s :
  match s with c :: _ => is_space c = false | [] => True end -> lstrip s = s.
Proof. destruct s as [|c s]; simpl; [reflexivity|]. now intros ->. Qed.

Lemma strip_digits s :
  Forall (fun c => is_ascii_digit c = true) s -> strip s = s.
Proof.
  intros H. unfold strip.
  rewrite (lstrip_no_space s).
  - rewrite lstrip_no_space; [apply rev_involutive|].
    destruct (rev s) as [|c r] eqn:E; [exact I|].
    apply digit_not_space.
    rewrite Forall_forall in H. apply H, in_rev. rewrite E. now left.
  - destruct H; [exact I | now apply digit_not_space].
Qed.

Lemma digits_value_zpad (Hd : ascii_digits) w : forall v acc rest,
  datetime.digits_value acc (datetime.zpad w v ++ rest)
  = datetime.digits_value (acc * 10 ^ Z.of_nat w + v mod 10 ^ Z.of_nat w) rest.
Proof.
  induction w as [|w IH]; intros v acc rest.
  - simpl. rewrite Z.mod_1_r. f_equal. lia.
  - cbn [datetime.zpad]. rewrite <- app_assoc, IH.
    cbn [app datetime.digits_value].
    destruct (ascii_digit_is_digit _ Hd (digit_char v)) as [-> ->]. f_equal.
    rewrite Nat2Z.inj_succ, Z.pow_succ_r by lia.
    assert (Hpos : 0 < 10 ^ Z.of_nat w) by (apply Z.pow_pos_nonneg; lia).
    rewrite (Z.mul_comm 10 (10 ^ Z.of_nat w)).
    rewrite (Z.mul_comm (10 ^ Z.of_nat w) 10) at 2.
    rewrite (Z.rem_mul_r v 10 (10 ^ Z.of_nat w)) by lia.
    lia.
Qed.

(** Reading back a zero-padded number. *)
Lemma int_zpad (Hd : ascii_digits) w v :
  (0 < w)%nat -> 0 <= v < 10 ^ Z.of_nat w ->
  datetime.int (datetime.zpad w v) = Return v.
Proof.
  intros Hw Hv. unfold datetime.int.
  rewrite (strip_digits _ (zpad_digits w v)).
  destruct (datetime.zpad w v) as [|c s] eqn:E.
  - apply (f_equal (@List.length _)) in E. rewrite zpad_length in E.
    simpl in E. lia.
  - rewrite <- E, <- (app_nil_r (datetime.zpad w v)), (digits_value_zpad Hd).
    simpl. rewrite Z.mod_small by lia. reflexivity.
Qed.

(** ** Reading a [YYYY-MM-DD] string back *)

Lemma iso_date_length y m d : List.length (iso_date y m d) = 10%nat.
Proof. unfold iso_date. rewrite !length_app, !zpad_length. reflexivity. Qed.

Lemma iso_date_shape y m d : is_YYYY_MM_DD (iso_date y m d) = true.
Proof.
  unfold iso_date. cbn [datetime.zpad app is_YYYY_MM_DD forallb].
  rewrite !digit_char. reflexivity.
Qed.

(** The year as the platform writes it, then the month and the day. *)
Lemma strftime_date dt :
  datetime.strftime dt (py "%Y-%m-%d")
  = format_year (datetime.year dt) ++ [45]
      ++ datetime.zpad 2 (datetime.month dt) ++ [45]
      ++ datetime.zpad 2 (datetime.day dt).
Proof. reflexivity. Qed.

Lemma strftime_iso dt :
  format_year (datetime.year dt) = datetime.zpad 4 (datetime.year dt) ->
  datetime.strftime dt (py "%Y-%m-%d")
  = iso_date (datetime.year dt) (datetime.month dt) (datetime.day dt).
Proof. intros H. rewrite strftime_date, H. reflexivity. Qed.

(** The first three formats need more than ten characters. *)
Lemma strptime_short s format p :
  datetime.pattern format = Return p ->
  (List.length s < min_len p)%nat ->
  datetime.strptime s format = Raise ValueError.
Proof.
  intros Hp Hlen. unfold datetime.strptime. rewrite Hp. simpl.
  destruct (re.match_ p s) as [[rest gd]|] eqn:E; [|reflexivity].
  apply rmatch_min_len in E. lia.
Qed.

Lemma year_group (Hd : ascii_digits) y s R (k : pystr -> pystr -> option R) :
  re.first_alt [[re.Digit; re.Digit; re.Digit; re.Digit]]
               (datetime.zpad 4 y ++ s) k
  = k (datetime.zpad 4 y) s.
Proof.
  cbn [re.first_alt]. rewrite match_alt_exact.
  - destruct (k _ s); reflexivity.
  - cbn [datetime.zpad app].
    repeat constructor; apply (ascii_digit_is_digit _ Hd), digit_char.
Qed.

Ltac compute_zpad :=
  repeat match goal with
         | |- context [datetime.zpad ?w ?v] =>
             let z := eval vm_compute in (datetime.zpad w v) in
             change (datetime.zpad w v) with z in *
         end.

Lemma month_group m s R (k : pystr -> pystr -> option R) r :
  1 <= m <= 12 ->
  k (datetime.zpad 2 m) s = Some r ->
  re.first_alt [[re.Only 49; re.Range 48 50]; [re.Only 48; re.Range 49 57];
                [re.Range 49 57]]
               (datetime.zpad 2 m ++ s) k
  = Some r.
Proof.
  intros Hm Hk.
  assert (Hcases : m = 1 \/ m = 2 \/ m = 3 \/ m = 4 \/ m = 5 \/ m = 6
                   \/ m = 7 \/ m = 8 \/ m = 9 \/ m = 10 \/ m = 11 \/ m = 12)
    by lia.
  repeat destruct Hcases as [->|Hcases]; try subst m;
    compute_zpad; simpl; rewrite Hk; reflexivity.
Qed.

Lemma day_group (Hd' : ascii_digits) d s R (k : pystr -> pystr -> option R) r :
  1 <= d <= 31 ->
  k (datetime.zpad 2 d) s = Some r ->
  re.first_alt [[re.Only 51; re.Range 48 49]; [re.Range 49 50; re.Digit];
                [re.Only 48; re.Range 49 57]; [re.Range 49 57];
                [re.Only 32; re.Range 49 57]]
               (datetime.zpad 2 d ++ s) k
  = Some r.
Proof.
  intros Hd Hk.
  assert (Hcases :
    d = 1 \/ d = 2 \/ d = 3 \/ d = 4 \/ d = 5 \/ d = 6 \/ d = 7 \/ d =
    8 \/ d = 9 \/ d = 10 \/ d = 11 \/ d = 12 \/ d = 13 \/ d = 14 \/ d
    = 15 \/ d = 16 \/ d = 17 \/ d = 18 \/ d = 19 \/ d = 20 \/ d = 21
    \/ d = 22 \/ d = 23 \/ d = 24 \/ d = 25 \/ d = 26 \/ d = 27 \/ d =
    28 \/ d = 29 \/ d = 30 \/ d = 31)
    by lia.
  assert (Hdigit : forall c, is_ascii_digit c = true -> is_digit c = true)
    by (intros c Hc; apply (ascii_digit_is_digit c Hd' Hc)).
  repeat destruct Hcases as [->|Hcases]; try subst d;
    compute_zpad; simpl; rewrite ?Hdigit by reflexivity;
    simpl; rewrite Hk; reflexivity.
Qed.

(** The date-only pattern reads a [YYYY-MM-DD] string to its end. *)
Lemma hyphen_matches : ascii_ignorecase -> ci_match 45 45 = true.
Proof. intros Hc. now rewrite (Hc 45 45) by lia. Qed.

Lemma match_iso_date (Hd' : ascii_digits) (Hc : ascii_ignorecase) y m d p :
  1 <= m <= 12 -> 1 <= d <= 31 ->
  datetime.pattern (py "%Y-%m-%d") = Return p ->
  re.match_ p (iso_date y m d)
  = Some ([], [(py "d", datetime.zpad 2 d); (py "m", datetime.zpad 2 m);
               (py "Y", datetime.zpad 4 y)]).
Proof.
  intros Hm Hd Hp. vm_compute in Hp. injection Hp as <-.
  unfold re.match_, iso_date.
  cbn [re.rmatch]. rewrite (year_group Hd').
  cbn [app re.rmatch]. rewrite (hyphen_matches Hc).
  apply month_group; [exact Hm|].
  cbn [app re.rmatch]. rewrite (hyphen_matches Hc).
  rewrite <- (app_nil_r (datetime.zpad 2 d)).
  apply (day_group Hd'); [exact Hd|]. reflexivity.
Qed.

Lemma days_in_month_le y m : datetime.days_in_month y m <= 31.
Proof.
  unfold datetime.days_in_month.
  destruct (m =? 2); [destruct (datetime.is_leap y); lia|].
  destruct (_ || _); lia.
Qed.

Lemma strptime_iso_date (Hd' : ascii_digits) (Hc : ascii_ignorecase) y m d :
  valid_date y m d ->
  datetime.strptime (iso_date y m d) (py "%Y-%m-%d")
  = Return (datetime.mk y m d 0 0 0 0).
Proof.
  intros (Hy & Hm & Hd).
  pose proof (days_in_month_le y m) as Hle.
  unfold datetime.strptime.
  destruct (datetime.pattern (py "%Y-%m-%d")) as [p|] eqn:Hp;
    [|vm_compute in Hp; discriminate].
  cbn [bind]. rewrite (match_iso_date Hd' Hc y m d p) by (assumption || lia).
  cbn [is_empty negb].
  change (datetime.field _ "Y" 1900) with (datetime.int (datetime.zpad 4 y)).
  rewrite (int_zpad Hd') by (simpl; lia). cbn [bind].
  change (datetime.field _ "m" 1) with (datetime.int (datetime.zpad 2 m)).
  rewrite (int_zpad Hd') by (simpl; lia). cbn [bind].
  change (datetime.field _ "d" 1) with (datetime.int (datetime.zpad 2 d)).
  rewrite (int_zpad Hd') by (simpl; lia).
  cbn [bind datetime.field datetime.fraction].
  change (re.get _ (py "H")) with (@None pystr).
  change (re.get _ (py "M")) with (@None pystr).
  change (re.get _ (py "S")) with (@None pystr).
  change (re.get _ (py "f")) with (@None pystr).
  cbn [bind]. unfold datetime.new.
  replace (between 1 9999 y) with true by (symmetry; apply between_true; lia).
  replace (between 1 12 m) with true by (symmetry; apply between_true; lia).
  replace (between 1 (datetime.days_in_month y m) d) with true
    by (symmetry; apply between_true; lia).
  reflexivity.
Qed.

(** ** [_parse_date] *)

Lemma parse_date_unfold raw :
  _parse_date raw = parse_date_with datetime.strptime pure_strftime raw.
Proof. reflexivity. Qed.

Lemma format_loop_first raw fmt d later : forall earlier,
  Forall (fun f => exists e, datetime.strptime raw f = Raise e) earlier ->
  datetime.strptime raw fmt = Return d ->
  format_loop datetime.strptime pure_strftime raw (earlier ++ fmt :: later)
  = Return (Some (datetime.strftime d (py "%Y-%m-%d"))).
Proof.
  induction earlier as [|f earlier IH]; intros Hearlier Hfmt; simpl.
  - rewrite Hfmt. reflexivity.
  - inversion Hearlier as [|? ? [e He] Hrest]; subst.
    rewrite He. simpl. rewrite (strptime_raises _ _ _ He). simpl.
    now apply IH.
Qed.

Lemma format_loop_none raw formats :
  (forall f, In f formats -> exists e, datetime.strptime raw f = Raise e) ->
  format_loop datetime.strptime pure_strftime raw formats = Return None.
Proof.
  induction formats as [|f formats IH]; intros H; simpl; [reflexivity|].
  destruct (H f (or_introl eq_refl)) as [e He].
  rewrite He. simpl. rewrite (strptime_raises _ _ _ He). simpl.
  apply IH. intros g Hg. apply H. now right.
Qed.

Lemma first_match_among raw formats :
  (exists fmt d, In fmt formats /\ datetime.strptime raw fmt = Return d) ->
  exists earlier fmt later d,
    formats = earlier ++ fmt :: later
    /\ Forall (fun f => exists e, datetime.strptime raw f = Raise e) earlier
    /\ datetime.strptime raw fmt = Return d.
Proof.
  induction formats as [|f formats IH]; intros (fmt & d & Hin & Hd).
  - destruct Hin.
  - destruct (datetime.strptime raw f) as [d0|e] eqn:E.
    + exists [], f, formats, d0. auto.
    + destruct Hin as [->|Hin]; [congruence|].
      destruct IH as (earlier & fmt' & later & d' & -> & Hearlier & Hd');
        [eauto|].
      exists (f :: earlier), fmt', later, d'. repeat split; auto.
      constructor; eauto.
Qed.

(** No format matches the empty string. *)
Lemma strptime_empty fmt :
  In fmt date_formats -> datetime.strptime [] fmt = Raise ValueError.
Proof.
  intros [<-|[<-|[<-|[<-|[]]]]]; vm_compute; reflexivity.
Qed.

Lemma first_match_nonempty raw fmt d : first_match raw fmt d -> raw <> [].
Proof.
  intros (earlier & later & Hlist & _ & Hd) ->.
  rewrite strptime_empty in Hd; [discriminate|].
  rewrite Hlist. apply in_elt.
Qed.

Lemma parse_date_first_match raw fmt d :
  first_match raw fmt d ->
  _parse_date raw = Return (datetime.strftime d (py "%Y-%m-%d")).
Proof.
  intros H. pose proof (first_match_nonempty _ _ _ H) as Hne.
  destruct H as (earlier & later & Hlist & Hearlier & Hd).
  rewrite parse_date_unfold. unfold parse_date_with.
  apply is_empty_false in Hne. rewrite Hne, Hlist.
  now rewrite (format_loop_first raw fmt d later earlier).
Qed.

Lemma parse_date_unrecognized raw :
  unrecognized raw -> raw <> [] ->
  _parse_date raw
  = Return (if 10 <=? len raw then slice_to 10 raw else raw).
Proof.
  intros H Hne. rewrite parse_date_unfold. unfold parse_date_with.
  apply is_empty_false in Hne. rewrite Hne.
  now rewrite format_loop_none.
Qed.

(** C4 (as amended). Date normalization: the formats are tried in their
    order and the first one that matches decides, the result being the
    year as the platform writes it, the month and the day, which is the
    date as [YYYY-MM-DD] from the year 1000 on; when no format matches, a
    string of ten characters or more gives its first ten characters and a
    shorter, non-empty one is returned as it is; the empty string gives
    the sentinel whatever the parser would do, that is, without any
    parsing attempt. *)
Theorem parse_date_policy raw :
  (forall fmt d,
      first_match raw fmt d ->
      _parse_date raw
      = Return (format_year (datetime.year d) ++ [45]
                  ++ datetime.zpad 2 (datetime.month d) ++ [45]
                  ++ datetime.zpad 2 (datetime.day d))
      /\ (year_padded_or_short -> 1000 <= datetime.year d ->
          _parse_date raw
          = Return (iso_date (datetime.year d) (datetime.month d)
                             (datetime.day d))
          /\ is_YYYY_MM_DD (iso_date (datetime.year d) (datetime.month d)
                                     (datetime.day d)) = true))
  /\ (recognized raw -> exists fmt d, first_match raw fmt d)
  /\ (unrecognized raw -> 10 <= len raw ->
      _parse_date raw = Return (slice_to 10 raw))
  /\ (unrecognized raw -> raw <> [] -> len raw < 10 ->
      _parse_date raw = Return raw)
  /\ (raw = [] ->
      forall strptime strftime,
        parse_date_with strptime strftime raw = Return date_not_found).
Proof.
  split; [|split; [|split; [|split]]].
  - intros fmt d H. split.
    + rewrite <- strftime_date. exact (parse_date_first_match raw fmt d H).
    + intros Hyear Hy. split; [|apply iso_date_shape].
      rewrite (parse_date_first_match raw fmt d H).
      rewrite strftime_iso; [reflexivity|].
      destruct H as (_ & _ & _ & _ & Hd). apply strptime_valid in Hd.
      destruct (Hyear (datetime.year d)) as [Hpad|[Hlt _]];
        [apply Hd | exact Hpad | lia].
  - intros H. apply first_match_among in H
      as (earlier & fmt & later & d & H). exists fmt, d, earlier, later. exact H.
  - intros H Hlen. rewrite parse_date_unrecognized; auto.
    + destruct (Z.leb_spec 10 (len raw)); [reflexivity | lia].
    + intros ->. unfold len in Hlen. simpl in Hlen. lia.
  - intros H Hne Hlen. rewrite parse_date_unrecognized; auto.
    destruct (Z.leb_spec 10 (len raw)); [lia | reflexivity].
  - intros -> strptime strftime. reflexivity.
Qed.

Lemma strptime_ten_chars s fmt :
  List.length s = 10%nat ->
  In fmt (firstn 3 date_formats) ->
  datetime.strptime s fmt = Raise ValueError.
Proof.
  intros Hlen [<-|[<-|[<-|[]]]];
    (eapply strptime_short;
     [vm_compute; reflexivity | rewrite Hlen; vm_compute; lia]).
Qed.

(** A [YYYY-MM-DD] date is left as it is where its year is written with
    four digits. *)
Lemma parse_date_iso_date (Hd : ascii_digits) (Hc : ascii_ignorecase) y m d :
  valid_date y m d -> format_year y = datetime.zpad 4 y ->
  _parse_date (iso_date y m d) = Return (iso_date y m d).
Proof.
  intros Hvalid Hy.
  rewrite (parse_date_first_match _ (py "%Y-%m-%d")
                                  (datetime.mk y m d 0 0 0 0)).
  - rewrite strftime_iso; [reflexivity | exact Hy].
  - exists (firstn 3 date_formats), []. repeat split.
    + apply Forall_forall. intros f Hf. exists ValueError.
      apply strptime_ten_chars; [apply iso_date_length | exact Hf].
    + now apply strptime_iso_date.
Qed.

(** Every format starts with the date. *)
Lemma pattern_of_date_format fmt :
  In fmt date_formats ->
  datetime.pattern fmt = Return (date_items ++ format_tail fmt).
Proof. intros [<-|[<-|[<-|[<-|[]]]]]; vm_compute; reflexivity. Qed.

(** Four digits are not found where a hyphen comes earlier. *)
Lemma match_alt_digits_stop (Hd : ascii_digits) n : forall year rest,
  (List.length year < n)%nat ->
  re.match_alt (repeat re.Digit n) (year ++ 45 :: rest) = None.
Proof.
  induction n as [|n IH]; intros year rest Hlen; [lia|].
  destruct year as [|c year]; cbn [repeat app re.match_alt re.cls_match].
  - now rewrite (hyphen_is_no_digit Hd).
  - destruct (is_digit c); [|reflexivity].
    rewrite IH; [reflexivity | simpl in Hlen; lia].
Qed.

(** A year of fewer than four characters is read by no format. *)
Lemma strptime_short_year (Hd : ascii_digits) year rest fmt :
  In fmt date_formats -> (List.length year < 4)%nat ->
  datetime.strptime (year ++ 45 :: rest) fmt = Raise ValueError.
Proof.
  intros Hfmt Hlen. unfold datetime.strptime.
  rewrite (pattern_of_date_format fmt Hfmt). cbn [bind].
  unfold date_items, re.match_. cbn [app re.rmatch re.first_alt].
  change [re.Digit; re.Digit; re.Digit; re.Digit] with (repeat re.Digit 4).
  rewrite (match_alt_digits_stop Hd 4 year rest Hlen). reflexivity.
Qed.

(** A date whose year is written with fewer than four characters is
    returned as it is. *)
Lemma parse_date_short_year (Hd : ascii_digits) year rest :
  (List.length year < 4)%nat -> (List.length rest = 5)%nat ->
  _parse_date (year ++ 45 :: rest) = Return (year ++ 45 :: rest).
Proof.
  intros Hyear Hrest. rewrite parse_date_unrecognized.
  - assert (Hlen : len (year ++ 45 :: rest) < 10)
      by (unfold len; rewrite length_app; simpl; lia).
    destruct (Z.leb_spec 10 (len (year ++ 45 :: rest))); [lia | reflexivity].
  - intros fmt Hfmt. exists ValueError. now apply strptime_short_year.
  - intros H. apply app_eq_nil in H as [_ H]. discriminate.
Qed.

(** What the normalization of a recognized string gives is left as it is
    by the normalization. *)
Lemma parse_date_of_output (Hd : ascii_digits) (Hc : ascii_ignorecase)
      (Hyear : year_padded_or_short) dt :
  valid_date (datetime.year dt) (datetime.month dt) (datetime.day dt) ->
  _parse_date (datetime.strftime dt (py "%Y-%m-%d"))
  = Return (datetime.strftime dt (py "%Y-%m-%d")).
Proof.
  intros Hvalid.
  destruct (Hyear (datetime.year dt) (proj1 Hvalid)) as [Hpad|[_ Hshort]].
  - rewrite (strftime_iso dt Hpad). now apply parse_date_iso_date.
  - rewrite strftime_date. cbn [app].
    apply (parse_date_short_year Hd); [exact Hshort|].
    rewrite length_app, !zpad_length. reflexivity.
Qed.

(** C5. Normalization is idempotent on the recognized inputs: a raw
    string that matches one of the four formats is normalized to a string
    that normalizes to itself, where the platform pads the year and where
    it does not. *)
Theorem parse_date_idempotent raw :
  ascii_digits -> ascii_ignorecase -> year_padded_or_short ->
  recognized raw ->
  exists out, _parse_date raw = Return out /\ _parse_date out = Return out.
Proof.
  intros Hd Hc Hyear H.
  apply first_match_among in H as (earlier & fmt & later & d & H).
  assert (Hfirst : first_match raw fmt d) by (exists earlier, later; exact H).
  destruct H as (_ & _ & Hdate).
  exists (datetime.strftime d (py "%Y-%m-%d")). split.
  - exact (parse_date_first_match raw fmt d Hfirst).
  - apply (parse_date_of_output Hd Hc Hyear). now apply strptime_valid in Hdate.
Qed.

(** C10. Date normalization is total: whatever the two library calls do,
    return or raise, [_parse_date] returns a string; a [ValueError] never
    leaves the loop over the formats and any other exception is caught by
    the handler around it. *)
Theorem parse_date_total :
  (forall strptime strftime raw,
      exists out, parse_date_with strptime strftime raw = Return out)
  /\ (forall strptime strftime raw formats,
         format_loop strptime strftime raw formats <> Raise ValueError)
  /\ (forall raw, exists out, _parse_date raw = Return out).
Proof.
  assert (Htotal : forall strptime strftime raw,
             exists out, parse_date_with strptime strftime raw = Return out).
  { intros strptime strftime raw. unfold parse_date_with.
    destruct (is_empty raw); [eauto|].
    destruct (format_loop strptime strftime raw date_formats) as [[r|]|e];
      eauto. }
  split; [exact Htotal|]. split; [|intros raw; apply Htotal].
  intros strptime strftime raw formats.
  induction formats as [|f formats IH]; simpl; [discriminate|].
  destruct (bind _ _) as [r|e]; [discriminate|].
  destruct e; simpl; try exact IH; discriminate.
Qed.

(** ** [_get_page_with_retry] *)

Section Fetch.

Variable net : nat -> pystr -> pyresult requests.Response.
Variable self : HabrScraper.
Variable url : pystr.

Lemma failed_attempt_raises r :
  attempt_fails r ->
  exists e,
    (response <- r ;;
     _ <- requests.raise_for_status response ;;
     Return (requests.text response)) = Raise e
    /\ is_RequestException e = true.
Proof.
  destruct r as [response|e]; simpl.
  - intros H. exists HTTPError. unfold requests.raise_for_status.
    rewrite H. auto.
  - intros H. eauto.
Qed.

Lemma retry_loop_success attempt rest w body :
  attempt_succeeds (net (sent w) url) body ->
  retry_loop net self url (attempt :: rest) w
  = (Return (Some body), mkWorld (S (sent w)) (slept w)).
Proof.
  intros (response & Hr & Hstatus & <-). simpl. rewrite Hr. simpl.
  unfold requests.raise_for_status. rewrite Hstatus. reflexivity.
Qed.

Lemma retry_loop_retry attempt rest w :
  attempt_fails (net (sent w) url) ->
  attempt < max_retries self - 1 ->
  retry_loop net self url (attempt :: rest) w
  = retry_loop net self url rest
               (mkWorld (S (sent w)) (slept w ++ [2 ^ attempt])).
Proof.
  intros Hfail Hlt. apply failed_attempt_raises in Hfail as (e & He & Hreq).
  cbn [retry_loop session_get]. rewrite He, Hreq.
  apply Z.ltb_lt in Hlt. rewrite Hlt. reflexivity.
Qed.

Lemma retry_loop_give_up attempt rest w :
  attempt_fails (net (sent w) url) ->
  max_retries self - 1 <= attempt ->
  retry_loop net self url (attempt :: rest) w
  = (Return (Some []), mkWorld (S (sent w)) (slept w)).
Proof.
  intros Hfail Hge. apply failed_attempt_raises in Hfail as (e & He & Hreq).
  cbn [retry_loop session_get]. rewrite He, Hreq.
  apply Z.ltb_ge in Hge. rewrite Hge. reflexivity.
Qed.

(** When every attempt fails the loop sleeps between the attempts, with
    the delays 1, 2, 4, ..., and gives up after the last one. *)
Lemma retry_loop_exhausted k : forall a w,
  Z.of_nat (a + S k) = max_retries self ->
  (forall i, (i <= k)%nat -> attempt_fails (net (sent w + i)%nat url)) ->
  retry_loop net self url (map Z.of_nat (seq a (S k))) w
  = (Return (Some []),
     mkWorld (sent w + S k)
             (slept w ++ map (fun i => 2 ^ Z.of_nat i) (seq a k))).
Proof.
  induction k as [|k IH]; intros a w Hmax Hfail.
  - cbn [seq map]. rewrite retry_loop_give_up.
    + rewrite app_nil_r, Nat.add_1_r. reflexivity.
    + specialize (Hfail 0%nat (Nat.le_0_l _)). now rewrite Nat.add_0_r in Hfail.
    + lia.
  - change (seq a (S (S k))) with (a :: seq (S a) (S k)).
    cbn [map]. rewrite retry_loop_retry.
    + rewrite (IH (S a)).
      * cbn [sent slept seq map]. rewrite <- app_assoc. simpl.
        do 2 f_equal. lia.
      * lia.
      * intros i Hi. cbn [sent].
        replace (S (sent w) + i)%nat with (sent w + S i)%nat by lia.
        apply Hfail. lia.
    + specialize (Hfail 0%nat (Nat.le_0_l _)). now rewrite Nat.add_0_r in Hfail.
    + lia.
Qed.

End Fetch.

Lemma total_slept_app w delays :
  total_slept (mkWorld (sent w) (slept w ++ delays))
  = total_slept w + fold_right Z.add 0 delays.
Proof.
  unfold total_slept. cbn [slept].
  induction (slept w) as [|x l IH]; simpl; lia.
Qed.

(** C1 (as amended). Three failed attempts followed by a successful one:
    when the maximum number of attempts is four or more, the fetch returns
    the body of the successful response after sleeping 1, 2 and 4, that
    is 7 in total, and does not sleep after the last attempt; with the
    default maximum of three the fourth request is never sent and the
    fetch returns the empty string after sleeping 1 and 2. *)
Theorem backoff_after_three_failures net self url w body :
  (forall i, (i < 3)%nat -> attempt_fails (net (sent w + i)%nat url)) ->
  attempt_succeeds (net (sent w + 3)%nat url) body ->
  (4 <= max_retries self ->
   exists w',
     _get_page_with_retry net self url w = (Return (Some body), w')
     /\ slept w' = slept w ++ [1; 2; 4]
     /\ total_slept w' = total_slept w + 7)
  /\ (max_retries self = 3 ->
      exists w',
        _get_page_with_retry net self url w = (Return (Some []), w')
        /\ sent w' = (sent w + 3)%nat
        /\ slept w' = slept w ++ [1; 2]).
Proof.
  intros Hfail Hok.
  assert (H0 : attempt_fails (net (sent w) url))
    by (rewrite <- (Nat.add_0_r (sent w)); apply Hfail; lia).
  assert (H1 : attempt_fails (net (S (sent w)) url))
    by (rewrite <- Nat.add_1_r; apply Hfail; lia).
  assert (H2 : attempt_fails (net (S (S (sent w))) url))
    by (replace (S (S (sent w))) with (sent w + 2)%nat by lia;
        apply Hfail; lia).
  replace (sent w + 3)%nat with (S (S (S (sent w)))) in Hok by lia.
  unfold _get_page_with_retry, range. split.
  - intros Hmax.
    destruct (Z.to_nat (max_retries self)) as [|[|[|[|k]]]] eqn:E; try lia.
    cbn [seq map].
    rewrite retry_loop_retry by (cbn [sent]; (assumption || lia)).
    rewrite retry_loop_retry by (cbn [sent]; (assumption || lia)).
    rewrite retry_loop_retry by (cbn [sent]; (assumption || lia)).
    rewrite (retry_loop_success _ _ _ _ _ _ body) by (cbn [sent]; assumption).
    eexists. split; [reflexivity|]. cbn [sent slept].
    rewrite <- !app_assoc. split; [reflexivity|].
    change (slept w ++ [2 ^ Z.of_nat 0] ++ [2 ^ Z.of_nat 1] ++ [2 ^ Z.of_nat 2])
      with (slept (mkWorld (S (S (S (S (sent w))))) (slept w ++ [1; 2; 4]))).
    rewrite (total_slept_app w [1; 2; 4]) at 1. reflexivity.
  - intros Hmax. rewrite Hmax.
    change (map Z.of_nat (seq 0 (Z.to_nat 3))) with [0; 1; 2].
    rewrite retry_loop_retry by (cbn [sent]; (assumption || lia)).
    rewrite retry_loop_retry by (cbn [sent]; (assumption || lia)).
    rewrite retry_loop_give_up by (cbn [sent]; (assumption || lia)).
    eexists. split; [reflexivity|]. cbn [sent slept].
    rewrite <- !app_assoc. split; [lia | reflexivity].
Qed.

(** C8. When every attempt fails (and at least one attempt is allowed),
    the fetch returns the empty string, it does not raise, and
    [find_articles] returns the empty list of records. *)
Theorem exhausted_fetch_gives_no_records net BeautifulSoup self w :
  1 <= max_retries self ->
  (forall url i,
      Z.of_nat i < max_retries self ->
      attempt_fails (net (sent w + i)%nat url)) ->
  exists w',
    (forall url, _get_page_with_retry net self url w = (Return (Some []), w'))
    /\ find_articles net BeautifulSoup self w = (Return [], w').
Proof.
  intros Hmax Hfail.
  destruct (Z.to_nat (max_retries self)) as [|k] eqn:E; [lia|].
  assert (Hfetch : forall url,
             _get_page_with_retry net self url w
             = (Return (Some []),
                mkWorld (sent w + S k)
                        (slept w ++ map (fun i => 2 ^ Z.of_nat i) (seq 0 k)))).
  { intros url. unfold _get_page_with_retry, range. rewrite E.
    apply retry_loop_exhausted; [lia|].
    intros i Hi. apply Hfail. lia. }
  eexists. split; [exact Hfetch|].
  unfold find_articles. rewrite Hfetch. reflexivity.
Qed.

(** With no attempt allowed the loop body never runs: the fetch returns
    [None], which [find_articles] treats like the empty string. *)
Remark no_attempt_no_records net BeautifulSoup self w :
  max_retries self <= 0 ->
  (forall url, _get_page_with_retry net self url w = (Return None, w))
  /\ find_articles net BeautifulSoup self w = (Return [], w).
Proof.
  intros Hmax.
  assert (Hfetch : forall url,
             _get_page_with_retry net self url w = (Return None, w)).
  { intros url. unfold _get_page_with_retry, range.
    replace (Z.to_nat (max_retries self)) with 0%nat by lia. reflexivity. }
  split; [exact Hfetch|].
  unfold find_articles. rewrite Hfetch. reflexivity.
Qed.



(** ** Records *)

(** The loop appends the records of the fragments, in their order. *)
Lemma articles_loop_flat_map self elements : forall articles,
  articles_loop self elements articles
  = articles
      ++ flat_map (fun e => to_list (_parse_article_preview self e)) elements.
Proof.
  induction elements as [|e elements IH]; intros articles; simpl.
  - now rewrite app_nil_r.
  - destruct (_parse_article_preview self e); simpl; rewrite IH.
    + now rewrite <- app_assoc.
    + reflexivity.
Qed.

Lemma preview_complete self e a :
  _parse_article_preview self e = Some a -> complete a.
Proof.
  intros H. apply parse_article_preview_inv in H
    as (te & tl & _ & _ & _ & Htitle & Hhref & Hlink & _ & Hfound).
  repeat split; auto.
  rewrite Hlink. destruct (startswith _ _); [exact Hhref|].
  intros Hnil. apply app_eq_nil in Hnil as [Hbase _]. discriminate.
Qed.

(** C3. Every record the extractor constructs has a non-empty list of
    matched keywords, a non-empty title and a non-empty link; so has
    every record [find_articles] returns. *)
Theorem records_are_complete self :
  (forall e a, _parse_article_preview self e = Some a -> complete a)
  /\ (forall net BeautifulSoup w records w',
         find_articles net BeautifulSoup self w = (Return records, w') ->
         Forall complete records).
Proof.
  split; [apply preview_complete|].
  intros net BeautifulSoup w records w'. unfold find_articles.
  destruct (_get_page_with_retry _ _ _ _) as [[html|e] w1]; [|discriminate].
  destruct (falsy html).
  - intros H. injection H as <- _. constructor.
  - intros H. injection H as <- _.
    rewrite articles_loop_flat_map. simpl.
    apply Forall_forall. intros a Ha.
    apply in_flat_map in Ha as (e & _ & Ha).
    destruct (_parse_article_preview self e) as [a'|] eqn:E; [|destruct Ha].
    destruct Ha as [<-|[]]. now apply preview_complete in E.
Qed.

Lemma title_link_of_inv e title_element title_link :
  bs4.find e "h2" (Some "tm-title"%string) = Some title_element ->
  bs4.find title_element "a" (Some "tm-title__link"%string) = Some title_link ->
  title_link_of e = Some title_link.
Proof. unfold title_link_of. now intros -> ->. Qed.

(** C6 (as amended). The link of a record is the [href] of the title
    link when that starts with ["http"], and the base origin followed by
    the [href] otherwise; so ["/ru/articles/123/"] becomes
    ["https://habr.com/ru/articles/123/"]. *)
Theorem link_is_href_or_prefixed_href self e a :
  _parse_article_preview self e = Some a ->
  exists title_link,
    title_link_of e = Some title_link
    /\ (startswith (href_of title_link) (py "http") = true ->
        link a = href_of title_link)
    /\ (startswith (href_of title_link) (py "http") = false ->
        link a = py "https://habr.com" ++ href_of title_link)
    /\ (href_of title_link = py "/ru/articles/123/" ->
        link a = py "https://habr.com/ru/articles/123/").
Proof.
  intros H. apply parse_article_preview_inv in H
    as (te & tl & H1 & H2 & _ & _ & _ & Hlink & _).
  exists tl. split; [now apply (title_link_of_inv e te)|].
  rewrite Hlink. repeat split.
  - now intros ->.
  - now intros ->.
  - intros ->. reflexivity.
Qed.

(** C7. A fragment without title container, without the link element of
    the title, with an empty title text or without link target gives no
    record, whatever else it contains; it is skipped, and the loop over
    the fragments goes on: what it returns are the records found so far
    followed by the record of every fragment before and after the
    malformed one that has a record, in the order of the fragments. *)
Theorem malformed_fragment_is_skipped self e :
  malformed e ->
  _parse_article_preview self e = None
  /\ forall before after articles,
      articles_loop self (before ++ e :: after) articles
      = articles
          ++ flat_map (fun x => to_list (_parse_article_preview self x))
                      (before ++ after).
Proof.
  intros Hbad.
  assert (Hnone : _parse_article_preview self e = None).
  { destruct (_parse_article_preview self e) as [a|] eqn:E; [|reflexivity].
    exfalso. apply parse_article_preview_inv in E
      as (te & tl & H1 & H2 & Ht & Htitle & Hhref & _).
    pose proof (title_link_of_inv e te tl H1 H2) as Htl.
    destruct Hbad as [H|_ H|tl' H Hempty|tl' H Hempty]; congruence. }
  split; [exact Hnone|].
  intros before after articles. rewrite articles_loop_flat_map.
  rewrite !flat_map_app. simpl. now rewrite Hnone.
Qed.

(* ================================================================= *)
(** * Further properties of the code *)

(** ** The retry loop in general *)

Lemma delays_from_S a k : delays_from a (S k) = delays_from a k ++ [2 ^ Z.of_nat (a + k)].
Proof. unfold delays_from. now rewrite seq_S, map_app. Qed.

Lemma delays_from_cons a k :
  delays_from a (S k) = 2 ^ Z.of_nat a :: delays_from (S a) k.
Proof. reflexivity. Qed.

Lemma sum_delays k : fold_right Z.add 0 (delays_from 0 k) = 2 ^ Z.of_nat k - 1.
Proof.
  induction k as [|k IH]; [reflexivity|].
  assert (Hsum : forall l x, fold_right Z.add x l = fold_right Z.add 0 l + x)
    by (induction l; intros; simpl; [|rewrite IHl]; lia).
  rewrite delays_from_S, fold_right_app, Hsum, IH.
  cbn [fold_right Nat.add].
  rewrite Nat2Z.inj_succ, Z.pow_succ_r by lia. lia.
Qed.

Section RetryLoop.

Variable net : nat -> pystr -> pyresult requests.Response.
Variable self : HabrScraper.
Variable url : pystr.

(** While the attempts fail and another one is allowed, the loop sleeps
    and goes on. *)
Lemma retry_loop_skip_failures k : forall a w rest,
  Z.of_nat (a + k) < max_retries self ->
  (forall i, (i < k)%nat -> attempt_fails (net (sent w + i)%nat url)) ->
  retry_loop net self url (map Z.of_nat (seq a k) ++ rest) w
  = retry_loop net self url rest
               (mkWorld (sent w + k) (slept w ++ delays_from a k)).
Proof.
  induction k as [|k IH]; intros a w rest Hmax Hfail.
  - simpl. rewrite Nat.add_0_r, app_nil_r. now destruct w.
  - cbn [seq map app]. rewrite retry_loop_retry.
    + rewrite IH.
      * cbn [sent slept]. rewrite <- app_assoc.
        replace (S (sent w) + k)%nat with (sent w + S k)%nat by lia.
        reflexivity.
      * lia.
      * intros i Hi. cbn [sent].
        replace (S (sent w) + i)%nat with (sent w + S i)%nat by lia.
        apply Hfail. lia.
    + specialize (Hfail 0%nat). rewrite Nat.add_0_r in Hfail. apply Hfail. lia.
    + lia.
Qed.

Lemma retry_loop_raise attempt rest w e :
  net (sent w) url = Raise e ->
  is_RequestException e = false ->
  retry_loop net self url (attempt :: rest) w
  = (Raise e, mkWorld (S (sent w)) (slept w)).
Proof.
  intros He Hreq. cbn [retry_loop session_get]. rewrite He. simpl.
  now rewrite Hreq.
Qed.

Lemma range_split k :
  Z.of_nat k < max_retries self ->
  exists r,
    range (max_retries self)
    = map Z.of_nat (seq 0 k) ++ Z.of_nat k :: map Z.of_nat (seq (S k) r).
Proof.
  intros Hk. exists (Z.to_nat (max_retries self) - S k)%nat. unfold range.
  replace (Z.to_nat (max_retries self))
    with (k + S (Z.to_nat (max_retries self) - S k))%nat at 1 by lia.
  rewrite seq_app, map_app. reflexivity.
Qed.

End RetryLoop.

(** X1. When the first [k] attempts fail and attempt [k] (counted from
    0, and within the allowed number) succeeds, the fetch returns the
    body of that response after exactly [k + 1] requests, having slept
    1, 2, ..., 2^(k-1) between them: 2^k - 1 in total, and nothing after
    the successful attempt. *)
Theorem fetch_succeeds_after_failures net self url w body k :
  Z.of_nat k < max_retries self ->
  (forall i, (i < k)%nat -> attempt_fails (net (sent w + i)%nat url)) ->
  attempt_succeeds (net (sent w + k)%nat url) body ->
  exists w',
    _get_page_with_retry net self url w = (Return (Some body), w')
    /\ sent w' = (sent w + k + 1)%nat
    /\ slept w' = slept w ++ delays_from 0 k
    /\ total_slept w' = total_slept w + (2 ^ Z.of_nat k - 1).
Proof.
  intros Hk Hfail Hok.
  destruct (range_split self k Hk) as [r Hr].
  unfold _get_page_with_retry. rewrite Hr.
  rewrite retry_loop_skip_failures by (assumption || lia).
  rewrite (retry_loop_success _ _ _ _ _ _ body) by exact Hok.
  eexists. split; [reflexivity|]. cbn [sent slept].
  split; [lia|]. split; [reflexivity|].
  change (slept w ++ delays_from 0 k)
    with (slept (mkWorld (S (sent w + k)) (slept w ++ delays_from 0 k))).
  rewrite (total_slept_app w (delays_from 0 k)) at 1.
  now rewrite sum_delays.
Qed.

(** X2. When all [max_retries >= 1] attempts fail, the fetch gives up
    after exactly [max_retries] requests, having slept 1, 2, ...,
    2^(max_retries - 2) between them and not after the last one:
    2^(max_retries - 1) - 1 in total. *)
Theorem fetch_gives_up_after_all_attempts net self url w :
  1 <= max_retries self ->
  (forall i,
      Z.of_nat i < max_retries self ->
      attempt_fails (net (sent w + i)%nat url)) ->
  exists w',
    _get_page_with_retry net self url w = (Return (Some []), w')
    /\ Z.of_nat (sent w') = Z.of_nat (sent w) + max_retries self
    /\ slept w' = slept w ++ delays_from 0 (Z.to_nat (max_retries self) - 1)
    /\ total_slept w' = total_slept w + (2 ^ (max_retries self - 1) - 1).
Proof.
  intros Hmax Hfail.
  destruct (Z.to_nat (max_retries self)) as [|k] eqn:E; [lia|].
  unfold _get_page_with_retry, range. rewrite E.
  rewrite retry_loop_exhausted by (lia || (intros i Hi; apply Hfail; lia)).
  eexists. split; [reflexivity|]. cbn [sent slept].
  split; [lia|].
  replace (S k - 1)%nat with k by lia.
  split; [reflexivity|].
  fold (delays_from 0 k).
  change (slept w ++ delays_from 0 k)
    with (slept (mkWorld (sent w + S k) (slept w ++ delays_from 0 k))).
  rewrite (total_slept_app w (delays_from 0 k)) at 1.
  rewrite sum_delays.
  replace (max_retries self - 1) with (Z.of_nat k) by lia. reflexivity.
Qed.

(** X3. An exception that is no [RequestException] is not retried: when
    it is raised at attempt [k], after [k] failed attempts, it leaves the
    fetch, and [find_articles] with it, after [k + 1] requests and with
    no sleep after it. *)
Theorem other_exception_leaves_fetch net BeautifulSoup self w e k :
  Z.of_nat k < max_retries self ->
  (forall url i, (i < k)%nat -> attempt_fails (net (sent w + i)%nat url)) ->
  (forall url, net (sent w + k)%nat url = Raise e) ->
  is_RequestException e = false ->
  let w' := mkWorld (sent w + k + 1) (slept w ++ delays_from 0 k) in
  (forall url, _get_page_with_retry net self url w = (Raise e, w'))
  /\ find_articles net BeautifulSoup self w = (Raise e, w').
Proof.
  intros Hk Hfail He Hreq w'.
  assert (Hfetch : forall url,
             _get_page_with_retry net self url w = (Raise e, w')).
  { intros url. destruct (range_split self k Hk) as [r Hr].
    unfold _get_page_with_retry. rewrite Hr.
    rewrite retry_loop_skip_failures by (auto || lia).
    rewrite (retry_loop_raise _ _ _ _ _ _ e) by (auto; apply He).
    cbn [sent slept]. unfold w'. do 2 f_equal. lia. }
  split; [exact Hfetch|].
  unfold find_articles. now rewrite Hfetch.
Qed.



Lemma retry_loop_bounded net self url k : forall a w,
  Z.of_nat (a + S k) = max_retries self ->
  exists j,
    (j <= k)%nat
    /\ snd (retry_loop net self url (map Z.of_nat (seq a (S k))) w)
       = mkWorld (sent w + S j) (slept w ++ delays_from a j)
    /\ fst (retry_loop net self url (map Z.of_nat (seq a (S k))) w)
       <> Return None.
Proof.
  induction k as [|k IH]; intros a w Hmax.
  - exists 0%nat. split; [lia|].
    cbn [seq map retry_loop session_get].
    destruct (bind _ _) as [body|e]; [|destruct (is_RequestException e)];
      try (replace (Z.of_nat a <? max_retries self - 1) with false
            by (symmetry; apply Z.ltb_ge; lia));
      cbn [fst snd delays_from seq map];
      rewrite app_nil_r, Nat.add_1_r; split; (reflexivity || discriminate).
  - change (seq a (S (S k))) with (a :: seq (S a) (S k)).
    cbn [map retry_loop session_get].
    destruct (bind _ _) as [body|e]; [|destruct (is_RequestException e)].
    + exists 0%nat. cbn [fst snd delays_from seq map].
      rewrite app_nil_r, Nat.add_1_r. repeat split; (lia || discriminate).
    + replace (Z.of_nat a <? max_retries self - 1) with true
        by (symmetry; apply Z.ltb_lt; lia).
      destruct (IH (S a) (sleep (2 ^ Z.of_nat a)
                                (mkWorld (S (sent w)) (slept w))))
        as (j & Hj & Hw & Hr); [lia|].
      exists (S j). split; [lia|]. split; [|exact Hr].
      rewrite Hw. cbn [sleep sent slept].
      rewrite delays_from_cons, <- app_assoc. f_equal. lia.
    + exists 0%nat. cbn [fst snd delays_from seq map].
      rewrite app_nil_r, Nat.add_1_r. repeat split; (lia || discriminate).
Qed.

(** X4. Whatever the network does, a fetch that is allowed at least one
    attempt sends between 1 and [max_retries] requests, sleeps once
    between two consecutive requests and never after the last one, the
    delays being 1, 2, 4, ... in this order; and it never returns
    [None]. *)
Theorem fetch_stays_within_attempts net self url w :
  1 <= max_retries self ->
  exists j,
    Z.of_nat j < max_retries self
    /\ snd (_get_page_with_retry net self url w)
       = mkWorld (sent w + S j) (slept w ++ delays_from 0 j)
    /\ fst (_get_page_with_retry net self url w) <> Return None.
Proof.
  intros Hmax. unfold _get_page_with_retry, range.
  destruct (Z.to_nat (max_retries self)) as [|k] eqn:E; [lia|].
  destruct (retry_loop_bounded net self url k 0 w) as (j & Hj & H); [lia|].
  exists j. split; [lia | exact H].
Qed.

(** ** [find_articles] *)

(** X5. When the fetch returns a non-empty page, [find_articles] sends
    no further request and returns the records of the fragments of the
    parsed page, in document order, each fragment giving one record or
    none: there are at most as many records as fragments, and none when
    the page has no fragment. *)
Theorem find_articles_in_document_order net BeautifulSoup self w html w' :
  _get_page_with_retry net self (py "https://habr.com/ru/all/") w
  = (Return (Some html), w') ->
  html <> [] ->
  let fragments := fragments_of (BeautifulSoup html) in
  let records :=
    flat_map (fun e => to_list (_parse_article_preview self e)) fragments in
  find_articles net BeautifulSoup self w = (Return records, w')
  /\ (List.length records <= List.length fragments)%nat
  /\ (fragments = [] -> records = []).
Proof.
  intros Hfetch Hne fragments records.
  split; [|split].
  - unfold find_articles. rewrite Hfetch. cbn [falsy].
    apply is_empty_false in Hne. rewrite Hne.
    now rewrite articles_loop_flat_map.
  - subst records. induction fragments as [|e l IH]; simpl; [lia|].
    rewrite length_app. destruct (_parse_article_preview self e); simpl; lia.
  - subst records. now intros ->.
Qed.



(** ** [_parse_date] on strings that start with a date *)

Lemma get_other name v gd other :
  name <> other -> re.get ((name, v) :: gd) other = re.get gd other.
Proof.
  intros Hne. simpl. destruct (str_eqb name other) eqn:E; [|reflexivity].
  apply str_eqb_eq in E. contradiction.
Qed.

(** Matching the rest of a pattern leaves the groups of other names as
    they are. *)
Lemma rmatch_keeps_groups name p : forall prev s gd rest gd',
  ~ In name (group_names p) ->
  re.rmatch p prev s gd = Some (rest, gd') ->
  re.get gd' name = re.get gd name.
Proof.
  induction p as [|it p IH]; intros prev s gd rest gd' Hname.
  - simpl. intros H. now injection H as _ <-.
  - assert (Hp : ~ In name (group_names p)).
    { intros Hin. apply Hname. unfold group_names. simpl.
      apply in_or_app. now right. }
    destruct it as [c| | |n alts|n c lo hi]; cbn [re.rmatch].
    + destruct s as [|x s]; [discriminate|].
      destruct (ci_match x c); [|discriminate]. now apply IH.
    + destruct (re.at_boundary prev s); [|discriminate]. now apply IH.
    + intros H. apply spaces_greedy_inv in H as (c & rest' & H & _).
      now apply IH in H.
    + intros H. apply first_alt_inv in H as (a & m & rest' & _ & _ & H).
      apply IH in H; [|exact Hp]. rewrite H. apply get_other.
      intros ->. apply Hname. now left.
    + intros H. apply repeat_greedy_inv in H as (taken & rest' & _ & _ & H).
      apply IH in H; [|exact Hp]. rewrite H. apply get_other.
      intros ->. apply Hname. now left.
Qed.

Lemma digit_is_no_separator (Hcase : ascii_ignorecase) b c :
  is_ascii_digit b = true -> c = 45 \/ c = 84 ->
  ci_match b c = false.
Proof.
  intros Hb Hc. apply between_true in Hb.
  rewrite Hcase by (destruct Hc; lia). apply Z.eqb_neq.
  assert (Hlow : ascii_lower b = b)
    by (unfold ascii_lower, between; decide_comparisons).
  rewrite Hlow.
  destruct Hc as [-> | ->];
    [change (ascii_lower 45) with 45 | change (ascii_lower 84) with 116]; lia.
Qed.

Lemma lit_stops_at_digit (Hcase : ascii_ignorecase) c p prev name gd :
  c = 45 \/ c = 84 ->
  stops_at_digit
    (fun m rest => re.rmatch (re.Lit c :: p) (re.last_of prev m) rest
                             ((name, m) :: gd)).
Proof.
  intros Hc a b rest Hb. cbn [re.rmatch].
  now rewrite (digit_is_no_separator Hcase b c Hb Hc).
Qed.

Lemma spaces_stop_at_digit p prev name gd :
  stops_at_digit
    (fun m rest => re.rmatch (re.Spaces :: p) (re.last_of prev m) rest
                             ((name, m) :: gd)).
Proof.
  intros a b rest Hb. cbn [re.rmatch re.spaces_greedy].
  now rewrite (digit_not_space b Hb).
Qed.

Lemma month_group_exact m s R (k : pystr -> pystr -> option R) :
  1 <= m <= 12 ->
  stops_at_digit k ->
  re.first_alt [[re.Only 49; re.Range 48 50]; [re.Only 48; re.Range 49 57];
                [re.Range 49 57]]
               (datetime.zpad 2 m ++ s) k
  = k (datetime.zpad 2 m) s.
Proof.
  intros Hm Hk.
  assert (Hcases : m = 1 \/ m = 2 \/ m = 3 \/ m = 4 \/ m = 5 \/ m = 6
                   \/ m = 7 \/ m = 8 \/ m = 9 \/ m = 10 \/ m = 11 \/ m = 12)
    by lia.
  repeat destruct Hcases as [->|Hcases]; try subst m;
    compute_zpad; simpl; try rewrite Hk by reflexivity;
    match goal with |- context [k ?a s] => destruct (k a s) end; reflexivity.
Qed.

Lemma day_group_exact (Hd' : ascii_digits) d s R
      (k : pystr -> pystr -> option R) :
  1 <= d <= 31 ->
  stops_at_digit k ->
  re.first_alt [[re.Only 51; re.Range 48 49]; [re.Range 49 50; re.Digit];
                [re.Only 48; re.Range 49 57]; [re.Range 49 57];
                [re.Only 32; re.Range 49 57]]
               (datetime.zpad 2 d ++ s) k
  = k (datetime.zpad 2 d) s.
Proof.
  intros Hd Hk.
  assert (Hcases :
    d = 1 \/ d = 2 \/ d = 3 \/ d = 4 \/ d = 5 \/ d = 6 \/ d = 7 \/ d =
    8 \/ d = 9 \/ d = 10 \/ d = 11 \/ d = 12 \/ d = 13 \/ d = 14 \/ d
    = 15 \/ d = 16 \/ d = 17 \/ d = 18 \/ d = 19 \/ d = 20 \/ d = 21
    \/ d = 22 \/ d = 23 \/ d = 24 \/ d = 25 \/ d = 26 \/ d = 27 \/ d =
    28 \/ d = 29 \/ d = 30 \/ d = 31)
    by lia.
  assert (Hdigit : forall c, is_ascii_digit c = true -> is_digit c = true)
    by (intros c Hc; apply (ascii_digit_is_digit c Hd' Hc)).
  repeat destruct Hcases as [->|Hcases]; try subst d;
    compute_zpad; simpl; rewrite ?Hdigit by reflexivity; simpl;
    try rewrite Hk by reflexivity;
    match goal with |- context [k ?a s] => destruct (k a s) end; reflexivity.
Qed.

Lemma date_format_parts fmt :
  In fmt date_formats ->
  datetime.pattern fmt = Return (date_items ++ format_tail fmt)
  /\ after_date (format_tail fmt)
  /\ (forall name, In name [py "Y"; py "m"; py "d"] ->
                   ~ In name (group_names (format_tail fmt))).
Proof.
  assert (Hnames : forall name l,
             In name [py "Y"; py "m"; py "d"] ->
             forallb (fun n => negb (existsb (str_eqb n) l))
                     [py "Y"; py "m"; py "d"] = true ->
             ~ In name l).
  { intros name l Hname Hall Hin. rewrite forallb_forall in Hall.
    specialize (Hall name Hname). apply negb_true_iff in Hall.
    assert (existsb (str_eqb name) l = true)
      by (apply existsb_exists; exists name; split;
          [exact Hin | now apply str_eqb_eq]).
    congruence. }
  intros [<-|[<-|[<-|[<-|[]]]]]; (split; [vm_compute; reflexivity|]);
    (split; [|intros name Hname; apply (Hnames _ _ Hname); reflexivity]).
  - right. left. eexists. reflexivity.
  - right. left. eexists. reflexivity.
  - right. right. eexists. reflexivity.
  - left. reflexivity.
Qed.

(** After the date of a string that starts with [YYYY-MM-DD], the match
    goes on with the rest of the format on the rest of the string. *)
Ltac solve_stops_at_digit Hcase :=
  let Hb := fresh "Hb" in
  intros ? ?b ? Hb; cbn [re.rmatch re.spaces_greedy];
  first [ rewrite (digit_is_no_separator Hcase _ 45 Hb (or_introl eq_refl))
        | rewrite (digit_is_no_separator Hcase _ 84 Hb (or_intror eq_refl))
        | rewrite (digit_not_space _ Hb) ];
  reflexivity.

Lemma match_after_date (Hd' : ascii_digits) (Hc : ascii_ignorecase)
      y m d suffix tail :
  1 <= m <= 12 -> 1 <= d <= 31 ->
  after_date tail ->
  re.match_ (date_items ++ tail) (iso_date y m d ++ suffix)
  = re.rmatch tail (re.last_of (Some 45) (datetime.zpad 2 d)) suffix
              (date_groups y m d).
Proof.
  intros Hm Hd Htail.
  unfold re.match_, iso_date, date_items, date_groups.
  rewrite <- !app_assoc. cbn [app re.rmatch].
  rewrite (year_group Hd').
  rewrite (hyphen_matches Hc).
  rewrite month_group_exact; [|exact Hm | solve_stops_at_digit Hc].
  rewrite (hyphen_matches Hc).
  destruct Htail as [->|[[p ->]|[p ->]]].
  - apply (day_group Hd' d suffix _ _ _ Hd). reflexivity.
  - rewrite (day_group_exact Hd');
      [reflexivity | exact Hd | solve_stops_at_digit Hc].
  - rewrite (day_group_exact Hd');
      [reflexivity | exact Hd | solve_stops_at_digit Hc].
Qed.

(** Whatever format reads a string that starts with [YYYY-MM-DD], the
    date it reads is that one. *)
Lemma strptime_date_prefix (Hd' : ascii_digits) (Hc : ascii_ignorecase)
      fmt y m d suffix dt :
  In fmt date_formats ->
  0 <= y <= 9999 -> 1 <= m <= 12 -> 1 <= d <= 31 ->
  datetime.strptime (iso_date y m d ++ suffix) fmt = Return dt ->
  datetime.year dt = y /\ datetime.month dt = m /\ datetime.day dt = d.
Proof.
  intros Hfmt Hy Hm Hd.
  destruct (date_format_parts fmt Hfmt) as (Hp & Htail & Hnames).
  unfold datetime.strptime. rewrite Hp. cbn [bind].
  rewrite (match_after_date Hd' Hc) by assumption.
  destruct (re.rmatch _ _ suffix _) as [[rest gd]|] eqn:E; [|discriminate].
  destruct (negb (is_empty rest)); [discriminate|].
  assert (Hget : forall name,
             In name [py "Y"; py "m"; py "d"] ->
             re.get gd name = re.get (date_groups y m d) name).
  { intros name Hname. apply (rmatch_keeps_groups name _ _ _ _ _ _
                                (Hnames name Hname) E). }
  unfold datetime.field at 1 2 3.
  rewrite !Hget by (simpl; auto).
  change (re.get (date_groups y m d) (py "Y")) with (Some (datetime.zpad 4 y)).
  change (re.get (date_groups y m d) (py "m")) with (Some (datetime.zpad 2 m)).
  change (re.get (date_groups y m d) (py "d")) with (Some (datetime.zpad 2 d)).
  cbv beta iota. rewrite !(int_zpad Hd') by (simpl; lia). cbn [bind].
  intros H. do 4 (apply bind_Return in H as (? & _ & H)).
  apply new_valid in H as [-> _]. repeat split.
Qed.



Lemma iso_date_nonempty y m d suffix : iso_date y m d ++ suffix <> [].
Proof.
  intros H. apply (f_equal (@List.length _)) in H.
  rewrite length_app, iso_date_length in H. discriminate.
Qed.

Lemma firstn_iso_date y m d suffix :
  slice_to 10 (iso_date y m d ++ suffix) = iso_date y m d.
Proof.
  unfold slice_to. rewrite <- (iso_date_length y m d) at 1.
  rewrite <- (Nat.add_0_r (List.length _)), firstn_app_2.
  cbn [firstn]. apply app_nil_r.
Qed.

Lemma format_loop_date_prefix (Hd' : ascii_digits) (Hc : ascii_ignorecase)
      y m d suffix formats :
  0 <= y <= 9999 -> 1 <= m <= 12 -> 1 <= d <= 31 ->
  format_year y = datetime.zpad 4 y ->
  incl formats date_formats ->
  let raw := iso_date y m d ++ suffix in
  format_loop datetime.strptime pure_strftime raw formats
  = Return (Some (iso_date y m d))
  \/ format_loop datetime.strptime pure_strftime raw formats = Return None.
Proof.
  intros Hy Hm Hd Hpad Hincl raw.
  induction formats as [|f formats IH]; [now right|].
  cbn [format_loop].
  destruct (datetime.strptime raw f) as [dt|e] eqn:E.
  - left. apply (strptime_date_prefix Hd' Hc) in E as (Ey & Em & Ed);
      try assumption; [|apply Hincl; now left].
    cbn [bind pure_strftime]. rewrite strftime_iso; rewrite Ey, ?Em, ?Ed;
      [reflexivity | exact Hpad].
  - cbn [bind]. rewrite (strptime_raises _ _ _ E). cbn [is_ValueError].
    apply IH. intros g Hg. apply Hincl. now right.
Qed.

Lemma parse_date_keeps_prefix (Hd' : ascii_digits) (Hc : ascii_ignorecase)
      y m d suffix :
  0 <= y <= 9999 -> 1 <= m <= 12 -> 1 <= d <= 31 ->
  format_year y = datetime.zpad 4 y ->
  _parse_date (iso_date y m d ++ suffix) = Return (iso_date y m d).
Proof.
  intros Hy Hm Hd Hpad. rewrite parse_date_unfold. unfold parse_date_with.
  pose proof (iso_date_nonempty y m d suffix) as Hne.
  apply is_empty_false in Hne. rewrite Hne.
  destruct (format_loop_date_prefix Hd' Hc y m d suffix date_formats
                                    Hy Hm Hd Hpad (incl_refl _)) as [-> | ->];
    [reflexivity|].
  rewrite firstn_iso_date.
  replace (10 <=? len (iso_date y m d ++ suffix)) with true; [reflexivity|].
  symmetry. apply Z.leb_le. unfold len.
  rewrite length_app, iso_date_length. lia.
Qed.

(** X6. A string that starts with a zero-padded date [YYYY-MM-DD] of the
    year 1000 or later is normalized to that date, whatever follows it (a
    time of day in any of the formats, a time zone, or text no format
    accepts) and whether or not the calendar has such a day: a string
    like 2024-02-30 comes back as it is. *)
Theorem date_prefix_is_kept y m d suffix :
  ascii_digits -> ascii_ignorecase -> year_padded_or_short ->
  1000 <= y <= 9999 -> 1 <= m <= 12 -> 1 <= d <= 31 ->
  _parse_date (iso_date y m d ++ suffix) = Return (iso_date y m d).
Proof.
  intros Hd' Hc Hyear Hy Hm Hd.
  apply (parse_date_keeps_prefix Hd' Hc); try assumption; [lia|].
  destruct (Hyear y) as [Hpad|[Hlt _]]; [lia | exact Hpad | lia].
Qed.

Lemma parse_date_empty : _parse_date [] = Return date_not_found.
Proof. reflexivity. Qed.

Lemma parse_date_returns raw : exists out, _parse_date raw = Return out.
Proof.
  rewrite parse_date_unfold. unfold parse_date_with.
  destruct (is_empty raw); [eauto|].
  destruct (format_loop _ _ raw date_formats) as [[r|]|e]; eauto.
Qed.

Lemma recognized_or_not raw : recognized raw \/ unrecognized raw.
Proof.
  unfold recognized, unrecognized.
  induction date_formats as [|f formats IH].
  - right. intros fmt [].
  - destruct (datetime.strptime raw f) as [dt|e] eqn:E.
    + left. exists f, dt. split; [now left | exact E].
    + destruct IH as [(fmt & d & Hin & Hd)|Hnone].
      * left. exists fmt, d. split; [now right | exact Hd].
      * right. intros fmt [<-|Hin]; eauto.
Qed.

(** X7. For a non-empty input the normalized date has at most ten
    characters: when a format matches the input it is the year, the
    month and the day the first such format reads, a date of the shape
    [YYYY-MM-DD] from the year 1000 on, and when none does it is the
    first ten characters of the input (all of it, when it is shorter).
    The sentinel is returned for the empty input only. *)
Theorem parse_date_of_nonempty raw :
  year_padded_or_short ->
  raw <> [] ->
  exists out,
    _parse_date raw = Return out
    /\ (List.length out <= 10)%nat
    /\ out <> date_not_found
    /\ ((exists fmt dt,
            first_match raw fmt dt
            /\ out = format_year (datetime.year dt) ++ [45]
                       ++ datetime.zpad 2 (datetime.month dt) ++ [45]
                       ++ datetime.zpad 2 (datetime.day dt)
            /\ (1000 <= datetime.year dt -> is_YYYY_MM_DD out = true))
        \/ (unrecognized raw /\ out = slice_to 10 raw)).
Proof.
  intros Hyear Hne.
  assert (Hshort : forall out, (List.length out <= 10)%nat ->
                               out <> date_not_found).
  { intros out Hlen ->. vm_compute in Hlen. lia. }
  destruct (recognized_or_not raw) as [Hrec|Hun].
  - apply first_match_among in Hrec as (earlier & fmt & later & dt & H).
    assert (Hfirst : first_match raw fmt dt)
      by (exists earlier, later; exact H).
    destruct H as (_ & _ & Hdt). apply strptime_valid in Hdt.
    exists (datetime.strftime dt (py "%Y-%m-%d")).
    assert (Hlen : (List.length (datetime.strftime dt (py "%Y-%m-%d")) <= 10)%nat).
    { rewrite strftime_date, !length_app, !zpad_length. simpl.
      destruct (Hyear (datetime.year dt) (proj1 Hdt)) as [->|[_ Hlt]];
        [rewrite zpad_length|]; lia. }
    split; [exact (parse_date_first_match raw fmt dt Hfirst)|].
    split; [exact Hlen|]. split; [now apply Hshort|].
    left. exists fmt, dt. split; [exact Hfirst|].
    split; [apply strftime_date|].
    intros Hy. rewrite strftime_iso; [apply iso_date_shape|].
    destruct (Hyear (datetime.year dt) (proj1 Hdt)) as [Hpad|[Hlt _]];
      [exact Hpad | lia].
  - exists (slice_to 10 raw).
    assert (Hlen : (List.length (slice_to 10 raw) <= 10)%nat)
      by apply firstn_le_length.
    split.
    + rewrite parse_date_unrecognized by assumption.
      destruct (Z.leb_spec 10 (len raw)) as [H|H]; [reflexivity|].
      unfold slice_to. rewrite firstn_all2; [reflexivity|]. unfold len in H. lia.
    + split; [exact Hlen|]. split; [now apply Hshort|]. now right.
Qed.

(** X8. The handler around the loop: when a library call raises an
    exception that is no [ValueError], after the earlier formats failed
    with [ValueError], the result is the first ten characters of a string
    of ten characters or more, and the sentinel, not the string itself,
    for a shorter one. *)
Theorem parse_date_after_other_exception
        strptime strftime raw earlier fmt later e :
  raw <> [] ->
  date_formats = earlier ++ fmt :: later ->
  Forall (fun f => strptime raw f = Raise ValueError) earlier ->
  (parsed_date <- strptime raw fmt ;; strftime parsed_date (py "%Y-%m-%d"))
  = Raise e ->
  is_ValueError e = false ->
  parse_date_with strptime strftime raw
  = Return (if 10 <=? len raw then slice_to 10 raw else date_not_found).
Proof.
  intros Hne Hlist Hearlier He Hnot.
  unfold parse_date_with. apply is_empty_false in Hne. rewrite Hne, Hlist.
  assert (Hloop : format_loop strptime strftime raw (earlier ++ fmt :: later)
                  = Raise e).
  { clear Hlist. induction earlier as [|f earlier IH]; cbn [app format_loop].
    - rewrite He, Hnot. reflexivity.
    - inversion Hearlier as [|? ? Hf Hrest]; subst.
      rewrite Hf. cbn [bind is_ValueError]. now apply IH. }
  now rewrite Hloop.
Qed.



(** ** [_parse_article_preview]: dates and keywords of a record *)

Lemma parse_article_preview_date self e a :
  _parse_article_preview self e = Some a ->
  _parse_date (datetime_of e) = Return (date a).
Proof.
  unfold _parse_article_preview, parse_article_preview_body.
  destruct (bs4.find e "h2" _) as [title_element|]; [|discriminate].
  destruct (bs4.find title_element "a" _) as [title_link|]; [|discriminate].
  destruct (is_empty _); [discriminate|].
  destruct (is_empty _); [discriminate|].
  fold (datetime_of e).
  destruct (_parse_date (datetime_of e)) as [formatted_date|]; [|discriminate].
  cbv beta iota zeta delta [bind].
  destruct (_find_keywords_with_regex self _) as [found|]; [|discriminate].
  destruct (is_empty found); [discriminate|].
  intros H. now injection H as <-.
Qed.

(** X9. The date of a record comes from the time stamp of its fragment:
    it is the sentinel when the fragment has no [time] element or the
    element has no time stamp, and it is the date the time stamp starts
    with when that is a zero-padded [YYYY-MM-DD] of the year 1000 or
    later. A missing date never costs the record. *)
Theorem record_date_from_time_stamp self e a :
  _parse_article_preview self e = Some a ->
  (datetime_of e = [] -> date a = date_not_found)
  /\ (ascii_digits -> ascii_ignorecase -> year_padded_or_short ->
      forall y m d suffix,
        1000 <= y <= 9999 -> 1 <= m <= 12 -> 1 <= d <= 31 ->
        datetime_of e = iso_date y m d ++ suffix ->
        date a = iso_date y m d).
Proof.
  intros H. apply parse_article_preview_date in H. split.
  - intros He. rewrite He, parse_date_empty in H. congruence.
  - intros Hd' Hc Hyear y m d suffix Hy Hm Hd He.
    rewrite He, (parse_date_keeps_prefix Hd' Hc) in H; try assumption.
    + now injection H as <-.
    + lia.
    + destruct (Hyear y) as [Hpad|[Hlt _]]; [lia | exact Hpad | lia].
Qed.

(** An occurrence in a text is an occurrence in the text followed by a
    separator and more text. *)
Lemma occurs_before_space kw text more :
  space_is_no_word ->
  occurs_as_whole_word kw text ->
  occurs_as_whole_word kw (text ++ 32 :: more).
Proof.
  intros Hspace (before & m & after & -> & Hm & B1 & B2).
  exists before, m, (after ++ 32 :: more).
  split; [now rewrite <- !app_assoc|]. split; [exact Hm|].
  unfold word_boundary in *. split.
  - destruct m; [destruct after|]; try exact B1.
    cbn [app hd_error re.word_at] in *. now rewrite Hspace.
  - destruct after; [|exact B2].
    cbn [app hd_error re.word_at] in *. now rewrite Hspace.
Qed.

Lemma occurs_nonempty kw text : occurs_as_whole_word kw text -> text <> [].
Proof.
  intros (before & m & after & H & _ & B1 & _) ->.
  symmetry in H. apply app_eq_nil in H as [-> H].
  apply app_eq_nil in H as [-> ->]. now apply B1.
Qed.

Lemma join_cons sep p parts :
  parts <> [] -> join sep (p :: parts) = p ++ sep ++ join sep parts.
Proof. destruct parts; [contradiction | reflexivity]. Qed.

(** X10. A fragment whose title carries a configured keyword,
    lower-cased, as a whole word up to case, and whose title link has a
    target, always gives a record, with that title and with the
    lower-cased keyword among the matched keywords, whatever the rest of
    the fragment holds. *)
Theorem keyword_in_title_gives_record K n e title_link kw :
  space_is_no_word ->
  title_link_of e = Some title_link ->
  href_of title_link <> [] ->
  In kw K ->
  occurs_as_whole_word (lower kw) (title_text_of title_link) ->
  exists a,
    _parse_article_preview (__init__ K n) e = Some a
    /\ title a = title_text_of title_link
    /\ In (lower kw) (found_keywords a).
Proof.
  intros Hspace Htl Hhref Hkw Hocc.
  pose proof (occurs_nonempty _ _ Hocc) as Htitle.
  unfold title_link_of in Htl.
  unfold _parse_article_preview, parse_article_preview_body.
  destruct (bs4.find e "h2" _) as [title_element|]; [|discriminate].
  rewrite Htl.
  fold (title_text_of title_link). fold (href_of title_link).
  apply is_empty_false in Htitle, Hhref. rewrite Htitle, Hhref.
  destruct (parse_date_returns (datetime_of e)) as [formatted_date Hdate].
  fold (datetime_of e). rewrite Hdate.
  cbv beta iota zeta delta [bind].
  rewrite find_keywords_init.
  match goal with
  | |- context [filter ?f (map lower K)] =>
      assert (Hin : In (lower kw) (filter f (map lower K)))
  end.
  { apply filter_In. split; [now apply in_map|].
    apply search_compile_word.
    cbn [app]. rewrite join_cons by apply app_cons_not_nil || (
      intros Hnil; repeat (apply app_eq_nil in Hnil as [_ Hnil]);
      discriminate).
    now apply occurs_before_space. }
  destruct (filter _ (map lower K)) as [|x found] eqn:Ef; [destruct Hin|].
  cbn [is_empty]. eexists. split; [reflexivity|].
  cbn [title found_keywords]. split; [reflexivity | exact Hin].
Qed.

(** X11. The matched keywords of a record are decided by its preview
    text alone: the lower-cased form of a configured keyword is among
    them exactly when it occurs in the preview text as a whole word, up
    to case. *)
Theorem record_keywords_match_preview K n e a :
  _parse_article_preview (__init__ K n) e = Some a ->
  found_keywords a = occurring K (preview_text a)
  /\ forall kw,
      In kw K ->
      (In (lower kw) (found_keywords a)
       <-> occurs_as_whole_word (lower kw) (preview_text a)).
Proof.
  intros H. apply parse_article_preview_inv in H
    as (_ & _ & _ & _ & _ & _ & _ & _ & Hfound & _).
  rewrite find_keywords_init in Hfound. injection Hfound as Hfound.
  split; [now rewrite <- Hfound|].
  intros kw Hkw. rewrite <- Hfound, filter_In. split.
  - intros [_ Hs]. now apply search_compile_word.
  - intros Hocc. split; [now apply in_map|].
    now apply search_compile_word.
Qed.

(** ** [_find_keywords_with_regex]: lists of keywords and case *)

(** X12. The result for a keyword list split in two is the result for
    the first part followed by the result for the second: each keyword is
    matched on its own, and more keywords never remove a match. *)
Theorem find_keywords_of_concatenation K1 K2 n T :
  _find_keywords_with_regex (__init__ (K1 ++ K2) n) T
  = Return (occurring K1 T ++ occurring K2 T)
  /\ _find_keywords_with_regex (__init__ K1 n) T = Return (occurring K1 T)
  /\ _find_keywords_with_regex (__init__ K2 n) T = Return (occurring K2 T).
Proof.
  rewrite !find_keywords_init. unfold occurring.
  now rewrite map_app, filter_app.
Qed.


(** ** [_find_keywords_with_regex]: the case of the keywords *)

(** X13. The case in which the keywords are configured does not matter:
    a scraper configured with the lower-cased keywords has the same
    keywords and patterns, and finds the same keywords in every text. *)
Theorem find_keywords_of_lowered_keywords K n T :
  lower_idempotent ->
  __init__ (map lower K) n = __init__ K n
  /\ _find_keywords_with_regex (__init__ (map lower K) n) T
     = _find_keywords_with_regex (__init__ K n) T.
Proof.
  intros Hidem.
  assert (Hsame : __init__ (map lower K) n = __init__ K n).
  { unfold __init__. rewrite map_map.
    now rewrite (map_ext _ _ (fun kw => Hidem kw)). }
  split; [exact Hsame | now rewrite Hsame].
Qed.


(** ** [print_articles] *)

Lemma nth_error_skip3 {A} (x1 x2 x3 : A) l k :
  nth_error (x1 :: x2 :: x3 :: l) (3 + k) = nth_error l k.
Proof. reflexivity. Qed.

Lemma print_loop_length articles : forall i,
  List.length (print_loop i articles) = (3 * List.length articles)%nat.
Proof.
  induction articles as [|a l IH]; intros i; [reflexivity|].
  cbn [print_loop app List.length]. rewrite IH. lia.
Qed.

Lemma print_loop_nth articles : forall i k a,
  nth_error articles k = Some a ->
  nth_error (print_loop i articles) (3 * k) = Some (entry_line (i + k) a)
  /\ nth_error (print_loop i articles) (1 + 3 * k) = Some (keywords_line a)
  /\ nth_error (print_loop i articles) (2 + 3 * k) = Some [].
Proof.
  induction articles as [|b l IH]; intros i k a Hk.
  - destruct k; discriminate.
  - destruct k as [|k].
    + injection Hk as ->. rewrite Nat.add_0_r.
      unfold entry_line, keywords_line.
      cbn [print_loop app nth_error Nat.mul Nat.add].
      split; [reflexivity|]. split; reflexivity.
    + cbn [nth_error] in Hk. cbn [print_loop app].
      replace (3 * S k)%nat with (3 + 3 * k)%nat by lia.
      replace (1 + (3 + 3 * k))%nat with (3 + (1 + 3 * k))%nat by lia.
      replace (2 + (3 + 3 * k))%nat with (3 + (2 + 3 * k))%nat by lia.
      rewrite !nth_error_skip3.
      replace (i + S k)%nat with (S i + k)%nat by lia.
      now apply IH.
Qed.

(** X14. [print_articles] prints one message when there is no record.
    Otherwise it prints the number of records and a rule of a hundred
    hyphens, then three texts for each record, in the order of the list
    and numbered from 1: the number with date, title and link, the
    matched keywords separated by commas, and an empty line. *)
Theorem print_articles_layout articles :
  (articles = [] -> print_articles articles = [not_found_message])
  /\ (articles <> [] ->
      List.length (print_articles articles)
      = (2 + 3 * List.length articles)%nat
      /\ nth_error (print_articles articles) 0
         = Some (py "Найдено статей: " ++ str_of_nat (List.length articles))
      /\ nth_error (print_articles articles) 1 = Some (repeat 45 100)
      /\ forall k a,
          nth_error articles k = Some a ->
          nth_error (print_articles articles) (2 + 3 * k)
          = Some (entry_line (S k) a)
          /\ nth_error (print_articles articles) (3 + 3 * k)
             = Some (keywords_line a)
          /\ nth_error (print_articles articles) (4 + 3 * k) = Some []).
Proof.
  split; [intros ->; unfold not_found_message; reflexivity|].
  intros Hne. unfold print_articles.
  apply is_empty_false in Hne. rewrite Hne. cbn [app].
  split; [cbn [List.length]; now rewrite print_loop_length|].
  split; [reflexivity|].
  split; [cbn [nth_error]; f_equal; vm_compute; reflexivity|].
  intros k a Hk.
  destruct (print_loop_nth articles 1 k a Hk) as (H1 & H2 & H3).
  repeat split; assumption.
Qed.

(** ** [save_to_file] *)

Lemma write_all_ok env chunks : forall k content,
  (forall j, exists u, write_k env j = Return u) ->
  write_all env k chunks content
  = (Return tt, content ++ List.concat chunks).
Proof.
  induction chunks as [|c chunks IH]; intros k content Hok; simpl.
  - now rewrite app_nil_r.
  - destruct (Hok k) as [u ->]. rewrite IH by exact Hok.
    now rewrite <- app_assoc.
Qed.






Lemma write_loop_nth articles : forall i k a,
  nth_error articles k = Some a ->
  nth_error (write_loop i articles) (3 * k)
  = Some (entry_line (i + k) a ++ [10])
  /\ nth_error (write_loop i articles) (1 + 3 * k)
     = Some (keywords_line a ++ [10])
  /\ nth_error (write_loop i articles) (2 + 3 * k) = Some (preview_line a).
Proof.
  induction articles as [|b l IH]; intros i k a Hk.
  - destruct k; discriminate.
  - destruct k as [|k].
    + injection Hk as ->. rewrite Nat.add_0_r.
      unfold entry_line, keywords_line, preview_line.
      cbn [write_loop app nth_error Nat.mul Nat.add].
      rewrite <- !app_assoc.
      split; [reflexivity|]. split; reflexivity.
    + cbn [nth_error] in Hk. cbn [write_loop app].
      replace (3 * S k)%nat with (3 + 3 * k)%nat by lia.
      replace (1 + (3 + 3 * k))%nat with (3 + (1 + 3 * k))%nat by lia.
      replace (2 + (3 + 3 * k))%nat with (3 + (2 + 3 * k))%nat by lia.
      rewrite !nth_error_skip3.
      replace (i + S k)%nat with (S i + k)%nat by lia.
      now apply IH.
Qed.

(** X17. The report file starts with the number of records and a rule;
    then, for each record in the order of the list and numbered from 1,
    it holds the line printed on the console, the line of the matched
    keywords and an excerpt of the preview text. The excerpt is the
    first 200 characters of the preview text, the whole of it when it is
    shorter, and three dots follow it in either case. *)
Theorem report_entries articles :
  nth_error (report_writes articles) 0
  = Some (py "Найдено статей: " ++ str_of_nat (List.length articles) ++ [10])
  /\ forall k a,
      nth_error articles k = Some a ->
      nth_error (report_writes articles) (2 + 3 * k)
      = Some (entry_line (S k) a ++ [10])
      /\ nth_error (report_writes articles) (3 + 3 * k)
         = Some (keywords_line a ++ [10])
      /\ nth_error (report_writes articles) (4 + 3 * k)
         = Some (preview_line a)
      /\ (List.length (slice_to 200 (preview_text a)) <= 200)%nat
      /\ ((List.length (preview_text a) <= 200)%nat ->
          preview_line a
          = py "   Превью: " ++ preview_text a ++ py "..." ++ [10; 10]).
Proof.
  split; [unfold report_writes; cbn [app nth_error]; reflexivity|].
  intros k a Hk.
  destruct (write_loop_nth articles 1 k a Hk) as (H1 & H2 & H3).
  split; [exact H1|]. split; [exact H2|]. split; [exact H3|].
  split; [apply firstn_le_length|].
  intros Hshort. unfold preview_line, slice_to. now rewrite firstn_all2.
Qed.



(** ** [main] *)

Lemma save_to_file_ok env fs articles filename :
  (exists u, open_w env filename = Return u) ->
  (forall k, exists u, write_k env k = Return u) ->
  save_to_file env fs articles filename
  = (write_file fs filename (report_text articles), [saved_message filename]).
Proof.
  intros [u Hopen] Hwrite.
  unfold save_to_file, report_text, saved_message. rewrite Hopen.
  rewrite write_all_ok by exact Hwrite. reflexivity.
Qed.

Lemma find_articles_world net BeautifulSoup self w :
  snd (find_articles net BeautifulSoup self w)
  = snd (_get_page_with_retry net self (py "https://habr.com/ru/all/") w).
Proof.
  unfold find_articles.
  destruct (_get_page_with_retry _ _ _ _) as [[html|e] w1]; [|reflexivity].
  destruct (falsy html); reflexivity.
Qed.

(** X18. A run while the site is down: [main] sends the three requests
    the default allows, sleeping 1 and 2 between them, prints the banner
    and the message that no article was found, and still writes the
    report, with the count 0, to the default file, and confirms it. It
    ends normally. *)
Theorem main_when_site_is_down net BeautifulSoup env fs w :
  (forall url i, (i < 3)%nat -> attempt_fails (net (sent w + i)%nat url)) ->
  (exists u, open_w env default_filename = Return u) ->
  (forall k, exists u, write_k env k = Return u) ->
  main net BeautifulSoup env fs w
  = (Return tt,
     banner ++ [not_found_message; saved_message default_filename],
     write_file fs default_filename (report_text []),
     mkWorld (sent w + 3) (slept w ++ [1; 2])).
Proof.
  intros Hfail Hopen Hwrite.
  unfold main, find_articles, _get_page_with_retry, range.
  change (Z.to_nat (max_retries (__init__ KEYWORDS default_max_retries)))
    with 3%nat.
  rewrite retry_loop_exhausted;
    [|reflexivity | intros i Hi; apply Hfail; lia].
  cbn [falsy is_empty].
  rewrite save_to_file_ok by assumption.
  unfold not_found_message. cbn [print_articles is_empty app].
  reflexivity.
Qed.

Lemma total_slept_mk n w delays :
  total_slept (mkWorld n (slept w ++ delays))
  = total_slept w + fold_right Z.add 0 delays.
Proof. exact (total_slept_app w delays). Qed.

(** X19. Whatever the network, the parser and the operating system do,
    a run of [main] prints the banner first, sends at least one and at
    most three requests, and sleeps at most 3 in total. *)
Theorem main_sends_at_most_three_requests net BeautifulSoup env fs w :
  match main net BeautifulSoup env fs w with
  | (_, printed, _, w') =>
      firstn 7 printed = banner
      /\ (sent w < sent w' <= sent w + 3)%nat
      /\ total_slept w <= total_slept w' <= total_slept w + 3
  end.
Proof.
  pose proof (find_articles_world net BeautifulSoup
                (__init__ KEYWORDS default_max_retries) w) as Hworld.
  unfold _get_page_with_retry, range in Hworld.
  change (Z.to_nat (max_retries (__init__ KEYWORDS default_max_retries)))
    with 3%nat in Hworld.
  destruct (retry_loop_bounded net (__init__ KEYWORDS default_max_retries)
              (py "https://habr.com/ru/all/") 2 0 w eq_refl)
    as (j & Hj & Hw & _).
  rewrite Hw in Hworld.
  unfold main.
  destruct (find_articles net BeautifulSoup _ w) as [[articles|e] w1];
    cbn [snd] in Hworld; subst w1.
  - destruct (save_to_file env fs articles default_filename) as [fs' saved].
    split; [reflexivity|]. cbn [sent]. split; [lia|].
    rewrite total_slept_mk, sum_delays.
    destruct j as [|[|[|j]]]; simpl; lia.
  - split; [reflexivity|]. cbn [sent]. split; [lia|].
    rewrite total_slept_mk, sum_delays.
    destruct j as [|[|[|j]]]; simpl; lia.
Qed.



(** ** The fields of a record *)

Lemma parse_article_preview_text self e a :
  _parse_article_preview self e = Some a ->
  exists parts,
    preview_text a = join (py " ") ([title a] ++ parts ++ [bs4.get_text e]).
Proof.
  unfold _parse_article_preview, parse_article_preview_body.
  destruct (bs4.find e "h2" _) as [title_element|]; [|discriminate].
  destruct (bs4.find title_element "a" _) as [title_link|]; [|discriminate].
  destruct (is_empty _); [discriminate|].
  destruct (is_empty _); [discriminate|].
  destruct (_parse_date _) as [formatted_date|]; [|discriminate].
  cbv beta iota zeta delta [bind].
  destruct (_find_keywords_with_regex self _) as [found|]; [|discriminate].
  destruct (is_empty found); [discriminate|].
  intros H. injection H as <-. cbn [title preview_text].
  match goal with
  | |- context [texts_of ?a ++ texts_of ?b ++ texts_of ?c ++ texts_of ?d
                  ++ texts_of ?e ++ [_]] =>
      exists (texts_of a ++ texts_of b ++ texts_of c ++ texts_of d
                ++ texts_of e)
  end.
  rewrite <- !app_assoc. reflexivity.
Qed.

Lemma join_ends_with sep parts x :
  exists before, join sep (parts ++ [x]) = before ++ x.
Proof.
  induction parts as [|p parts [before IH]].
  - exists []. reflexivity.
  - cbn [app]. rewrite join_cons by apply app_cons_not_nil || (
      intros Hnil; apply app_eq_nil in Hnil as [_ Hnil]; discriminate).
    rewrite IH. exists (p ++ sep ++ before). now rewrite <- !app_assoc.
Qed.

(** X20. The preview text of a record starts with its title, followed by
    a space, and ends with the whole text of the fragment; and the link
    of a record always starts with ["http"]. *)
Theorem record_text_and_link_shape self e a :
  _parse_article_preview self e = Some a ->
  (exists between,
      preview_text a = title a ++ 32 :: between ++ bs4.get_text e)
  /\ startswith (link a) (py "http") = true.
Proof.
  intros H. split.
  - apply parse_article_preview_text in H as [parts ->].
    cbn [app]. rewrite join_cons by apply app_cons_not_nil || (
      intros Hnil; apply app_eq_nil in Hnil as [_ Hnil]; discriminate).
    destruct (join_ends_with (py " ") parts (bs4.get_text e)) as [before ->].
    exists before. reflexivity.
  - apply parse_article_preview_inv in H
      as (_ & tl & _ & _ & _ & _ & _ & Hlink & _).
    rewrite Hlink.
    destruct (startswith (href_of tl) (py "http")) eqn:E; [exact E|].
    vm_compute. reflexivity.
Qed.

(** *** Trimmed titles *)

Lemma lstrip_head s :
  match hd_error (lstrip s) with
  | Some c => is_space c = false
  | None => True
  end.
Proof.
  induction s as [|c s IH]; simpl; [exact I|].
  destruct (is_space c) eqn:E; [exact IH | exact E].
Qed.

Lemma lstrip_suffix s : exists spaces, s = spaces ++ lstrip s.
Proof.
  induction s as [|c s [spaces IH]]; simpl; [now exists []|].
  destruct (is_space c).
  - exists (c :: spaces). simpl. now f_equal.
  - now exists [].
Qed.

Lemma last_of_nonempty prev s :
  s <> [] -> re.last_of prev s = re.last_of None s.
Proof.
  destruct s as [|c s]; [contradiction|]. intros _. reflexivity.
Qed.

Lemma last_of_rev s : re.last_of None (rev s) = hd_error s.
Proof.
  destruct s as [|c s]; [reflexivity|].
  simpl. rewrite last_of_app. reflexivity.
Qed.

Lemma hd_error_rev s : hd_error (rev s) = re.last_of None s.
Proof. rewrite <- (rev_involutive s) at 2. now rewrite last_of_rev. Qed.

Lemma strip_trimmed s : trimmed (strip s).
Proof.
  unfold trimmed, strip. rewrite hd_error_rev, last_of_rev.
  split; [|apply lstrip_head].
  set (t := lstrip s). set (u := lstrip (rev t)).
  destruct (lstrip_suffix (rev t)) as [spaces Hs]. fold u in Hs.
  assert (Hu : u = [] \/ u <> [])
    by (destruct u; [left | right]; congruence).
  destruct Hu as [->|Hne]; [exact I|].
  rewrite <- (last_of_nonempty (re.last_of None spaces) u Hne).
  rewrite <- last_of_app, <- Hs, last_of_rev.
  apply lstrip_head.
Qed.

Lemma concat_trimmed pieces :
  Forall trimmed pieces ->
  Forall (fun p => p <> []) pieces ->
  trimmed (List.concat pieces).
Proof.
  induction pieces as [|p pieces IH]; intros Ht Hne; [split; exact I|].
  inversion Ht as [|? ? [Hhd Hlast] Ht']; subst.
  inversion Hne as [|? ? Hp Hne']; subst.
  specialize (IH Ht' Hne'). destruct IH as [IHhd IHlast].
  cbn [List.concat]. split.
  - destruct p; [contradiction | exact Hhd].
  - rewrite last_of_app.
    destruct (List.concat pieces) as [|c rest] eqn:E.
    + exact Hlast.
    + rewrite last_of_nonempty by discriminate. exact IHlast.
Qed.

Lemma get_text_trimmed n : trimmed (bs4.get_text n).
Proof.
  unfold bs4.get_text. apply concat_trimmed.
  - apply Forall_forall. intros p Hp. apply filter_In in Hp as [Hp _].
    apply in_map_iff in Hp as (s & <- & _). apply strip_trimmed.
  - apply Forall_forall. intros p Hp. apply filter_In in Hp as [_ Hp].
    apply negb_true_iff in Hp. now apply is_empty_false.
Qed.

(** X21. The title of a record has no white space at its start or at its
    end: it is made of the stripped texts of the title element. *)
Theorem record_title_is_trimmed self e a :
  _parse_article_preview self e = Some a -> trimmed (title a).
Proof.
  intros H. apply parse_article_preview_inv in H
    as (_ & tl & _ & _ & Htitle & _).
  rewrite Htitle. unfold title_text_of.
  destruct (bs4.find tl "span" None); apply get_text_trimmed.
Qed.


End Properties.

(* ================================================================= *)
(** * The properties at the sample inputs *)

#[local] Existing Instance sample_tables.

(** ** The sample tables

    The sample tables are of the kind the properties are about. *)

Lemma sample_ascii_digits : ascii_digits (U := sample_tables).
Proof. intros c Hc. split; [reflexivity | intros _; reflexivity]. Qed.

Lemma sample_tolower_ascii c :
  0 <= c < 128 -> sample_tolower c = ascii_lower c.
Proof.
  intros Hc. unfold sample_tolower, ascii_lower, between.
  repeat match goal with
         | |- context [?a <=? ?b] => destruct (Z.leb_spec a b); try lia
         end;
  reflexivity.
Qed.

Lemma sample_ascii_ignorecase : ascii_ignorecase (U := sample_tables).
Proof.
  intros x c Hx Hc. cbn [ci_match sample_tables].
  now rewrite !sample_tolower_ascii.
Qed.

Lemma sample_space_is_no_word : space_is_no_word (U := sample_tables).
Proof. reflexivity. Qed.

Lemma sample_tolower_idempotent c :
  sample_tolower (sample_tolower c) = sample_tolower c.
Proof.
  unfold sample_tolower, between.
  repeat match goal with
         | |- context [if ?b then _ else _] => destruct b eqn:?
         end; try reflexivity; lia.
Qed.

Lemma sample_lower_idempotent : lower_idempotent (U := sample_tables).
Proof.
  intros s. cbn [lower sample_tables]. rewrite map_map.
  apply map_ext. intro; apply sample_tolower_idempotent.
Qed.

Lemma sample_year_padded : year_padded_or_short (U := sample_tables).
Proof. intros y Hy. now left. Qed.

(** The tables whose years are not padded. *)
Lemma unpadded_ascii_digits : ascii_digits (U := unpadded_tables).
Proof. intros c Hc. split; [reflexivity | intros _; reflexivity]. Qed.

Lemma unpadded_ascii_ignorecase : ascii_ignorecase (U := unpadded_tables).
Proof.
  intros x c Hx Hc. cbn [ci_match unpadded_tables].
  now rewrite !sample_tolower_ascii.
Qed.

Lemma drop_zeros_length s : (List.length (drop_zeros s) <= List.length s)%nat.
Proof.
  induction s as [|c s IH]; simpl; [lia|].
  destruct ((c =? 48) && negb (is_empty s)); simpl; lia.
Qed.

Lemma drop_zeros_zero s : s <> [] -> drop_zeros (48 :: s) = drop_zeros s.
Proof. destruct s; [contradiction | reflexivity]. Qed.

Lemma drop_zeros_other c s : c <> 48 -> drop_zeros (c :: s) = c :: s.
Proof.
  intros Hc. simpl. apply Z.eqb_neq in Hc. now rewrite Hc.
Qed.

Lemma unpadded_year_padded_or_short :
  year_padded_or_short (U := unpadded_tables).
Proof.
  intros y Hy. change (format_year y) with (drop_zeros (datetime.zpad 4 y)).
  cbn [datetime.zpad app].
  destruct (Z.ltb_spec y 1000) as [Hlt|Hge].
  - right. split; [exact Hlt|].
    assert (H0 : 48 + y / 10 / 10 / 10 mod 10 = 48)
      by (Z.to_euclidean_division_equations; lia).
    rewrite H0, drop_zeros_zero by discriminate.
    match goal with
    | |- (List.length (drop_zeros ?s) < 4)%nat =>
        pose proof (drop_zeros_length s) as H; cbn [List.length] in H
    end.
    lia.
  - left. apply drop_zeros_other.
    Z.to_euclidean_division_equations; lia.
Qed.

(** ** Keywords *)

(** The scenario of the specification: the keyword list ["python"]
    against a text containing "Python" gives ["python"], and "pythonic"
    alone is no match. *)
Example find_keywords_python :
  _find_keywords_with_regex (__init__ [py "python"] default_max_retries)
                            (py "Учим Python быстро")
  = Return [py "python"]
  /\ _find_keywords_with_regex (__init__ [py "python"] default_max_retries)
                               (py "a pythonic web-сервис")
     = Return [].
Proof. split; reflexivity. Qed.

(** The configured keywords against a Russian title: upper-case Cyrillic
    letters match, and the words are reported in configuration order. *)
Example find_keywords_cyrillic :
  _find_keywords_with_regex scraper (py "ФОТО и веб-Дизайн: фотография")
  = Return [py "дизайн"; py "фото"].
Proof. reflexivity. Qed.

(** C2 (witness of the amended statement): two spellings of one word. *)
Lemma find_keywords_subsequence_of_lowered_witness :
  exists r,
    _find_keywords_with_regex
      (__init__ [py "Python"; py "web"] default_max_retries)
      (py "Web и python") = Return r
    /\ subsequence r (map lower [py "Python"; py "web"])
    /\ (NoDup (map lower [py "Python"; py "web"]) -> NoDup r)
    /\ (r = [] <->
        forall kw, In kw [py "Python"; py "web"] ->
                   ~ occurs_as_whole_word (lower kw) (py "Web и python")).
Proof.
  apply (find_keywords_subsequence_of_lowered (U := sample_tables)
           [py "Python"; py "web"] default_max_retries (py "Web и python")).
Defined.

(** C2 (counterexample). With the keywords ["Python"; "PYTHON"] and the
    text "python" the result is ["python"; "python"]: it is no subset of
    the keyword list and it repeats a keyword. *)
Lemma find_keywords_not_subset_of_configured :
  _find_keywords_with_regex
    (__init__ [py "Python"; py "PYTHON"] default_max_retries) (py "python")
  = Return [py "python"; py "python"]
  /\ ~ matched_keywords_as_specified [py "Python"; py "PYTHON"] (py "python").
Proof.
  split; [reflexivity|].
  intros (r & Hr & Hincl & _).
  vm_compute in Hr. injection Hr as <-.
  specialize (Hincl _ (or_introl eq_refl)).
  vm_compute in Hincl. destruct Hincl as [H|[H|[]]]; discriminate.
Qed.

(** ** Fetching *)

(** C1 (witness of the amended statement): a scraper allowed five
    attempts on a network that fails three times. *)
Lemma backoff_after_three_failures_witness :
  exists w',
    _get_page_with_retry flaky_net (__init__ KEYWORDS 5)
                         (py "https://habr.com/ru/all/") (mkWorld 0 [])
    = (Return (Some (py "<html></html>")), w')
    /\ slept w' = [1; 2; 4]
    /\ total_slept w' = 7.
Proof.
  refine (proj1 (backoff_after_three_failures
                   flaky_net (__init__ KEYWORDS 5)
                   (py "https://habr.com/ru/all/") (mkWorld 0 [])
                   (py "<html></html>") _ _) _).
  - intros i Hi. destruct i as [|[|[|i]]]; simpl; try reflexivity. lia.
  - eexists. simpl. repeat split.
  - simpl. discriminate.
Defined.

(** C1 (counterexample). With the default of three attempts the scraper
    gives up after the third failure: it returns the empty string and has
    slept 1 + 2 = 3, although a fourth request would have succeeded. *)
Lemma backoff_with_default_gives_up :
  _get_page_with_retry flaky_net scraper
                       (py "https://habr.com/ru/all/") (mkWorld 0 [])
  = (Return (Some []), mkWorld 3 [1; 2])
  /\ ~ backoff_as_specified flaky_net scraper
         (py "https://habr.com/ru/all/") (mkWorld 0 []) (py "<html></html>").
Proof.
  split; [reflexivity|].
  intros H. destruct H as (w' & Hw & Hslept).
  - intros i Hi. destruct i as [|[|[|i]]]; simpl; try reflexivity. lia.
  - eexists. simpl. repeat split.
  - vm_compute in Hw. discriminate Hw.
Qed.

(** C8 (witness): the default scraper while the site is down. *)
Lemma exhausted_fetch_gives_no_records_witness :
  exists w',
    (forall url,
        _get_page_with_retry down_net scraper url (mkWorld 0 [])
        = (Return (Some []), w'))
    /\ find_articles down_net no_parser scraper (mkWorld 0 []) = (Return [], w').
Proof.
  apply (exhausted_fetch_gives_no_records (U := sample_tables) down_net no_parser scraper
                                          (mkWorld 0 [])).
  - simpl. discriminate.
  - intros url i _. reflexivity.
Defined.

(** X1 (witness). *)
Lemma fetch_succeeds_after_failures_witness :
  exists w',
    _get_page_with_retry flaky_net (__init__ KEYWORDS 10)
                         (py "https://habr.com/ru/all/") (mkWorld 0 [])
    = (Return (Some (py "<html></html>")), w')
    /\ sent w' = 4%nat
    /\ slept w' = [1; 2; 4]
    /\ total_slept w' = 7.
Proof.
  apply (fetch_succeeds_after_failures
           flaky_net (__init__ KEYWORDS 10) (py "https://habr.com/ru/all/")
           (mkWorld 0 []) (py "<html></html>") 3).
  - reflexivity.
  - intros i Hi. destruct i as [|[|[|i]]]; simpl; try reflexivity. lia.
  - eexists. simpl. repeat split.
Defined.

(** X2 (witness). *)
Lemma fetch_gives_up_after_all_attempts_witness :
  exists w',
    _get_page_with_retry down_net (__init__ KEYWORDS 5)
                         (py "https://habr.com/ru/all/") (mkWorld 0 [])
    = (Return (Some []), w')
    /\ Z.of_nat (sent w') = 5
    /\ slept w' = [1; 2; 4; 8]
    /\ total_slept w' = 15.
Proof.
  apply (fetch_gives_up_after_all_attempts
           down_net (__init__ KEYWORDS 5) (py "https://habr.com/ru/all/")
           (mkWorld 0 [])).
  - simpl. discriminate.
  - intros i _. reflexivity.
Defined.

(** X3 (witness). *)
Lemma other_exception_leaves_fetch_witness :
  let net := fun (n : nat) (url : pystr) =>
               match n with
               | 0%nat => Raise Timeout
               | _ => @Raise requests.Response RuntimeError
               end in
  (forall url,
      _get_page_with_retry net scraper url (mkWorld 0 [])
      = (Raise RuntimeError, mkWorld 2 [1]))
  /\ find_articles net no_parser scraper (mkWorld 0 [])
     = (Raise RuntimeError, mkWorld 2 [1]).
Proof.
  intros net.
  apply (other_exception_leaves_fetch (U := sample_tables) net no_parser scraper (mkWorld 0 [])
                                      RuntimeError 1).
  - reflexivity.
  - intros url i Hi. destruct i as [|i]; [reflexivity | lia].
  - reflexivity.
  - reflexivity.
Defined.

(** X4 (witness). *)
Lemma fetch_stays_within_attempts_witness :
  exists j,
    Z.of_nat j < 3
    /\ snd (_get_page_with_retry flaky_net scraper
                                 (py "https://habr.com/ru/all/") (mkWorld 0 []))
       = mkWorld (0 + S j) ([] ++ delays_from 0 j)
    /\ fst (_get_page_with_retry flaky_net scraper
                                 (py "https://habr.com/ru/all/") (mkWorld 0 []))
       <> Return None.
Proof.
  apply (fetch_stays_within_attempts
           flaky_net scraper (py "https://habr.com/ru/all/") (mkWorld 0 [])).
  simpl. discriminate.
Defined.

(** X5 (witness). *)
Lemma find_articles_in_document_order_witness :
  let net := fun (n : nat) (url : pystr) => ok_response "<html></html>" in
  let soup := fun (html : pystr) =>
                bs4.Tag [] [] [python_article; no_href_article; ftp_article] in
  exists a b,
    find_articles net soup scraper (mkWorld 0 []) = (Return [a; b], mkWorld 1 [])
    /\ link a = py "https://habr.com/ru/articles/123/"
    /\ link b = py "https://habr.comftp://example.org/a".
Proof.
  intros net soup.
  destruct (find_articles_in_document_order (U := sample_tables)
              net soup scraper (mkWorld 0 []) (py "<html></html>")
              (mkWorld 1 []) eq_refl) as (H & _ & _).
  - discriminate.
  - do 2 eexists. split; [exact H|]. split; reflexivity.
Defined.

(** ** Records *)

(** C3 (witness): the record of a preview about Python. *)
Lemma records_are_complete_witness :
  exists a,
    _parse_article_preview scraper python_article = Some a /\ complete a.
Proof.
  eexists. split; [reflexivity|].
  apply (proj1 (records_are_complete (U := sample_tables) scraper) python_article). reflexivity.
Defined.

(** C6 (witness): the relative link of the specification's scenario. *)
Lemma link_is_href_or_prefixed_href_witness :
  exists a,
    _parse_article_preview scraper python_article = Some a
    /\ link a = py "https://habr.com/ru/articles/123/".
Proof.
  eexists. split; [reflexivity|].
  destruct (link_is_href_or_prefixed_href (U := sample_tables) scraper python_article _ eq_refl)
    as (tl & Htl & _ & _ & H).
  vm_compute in Htl. injection Htl as <-. apply H. reflexivity.
Defined.

(** C6 (counterexample). The target ["ftp://example.org/a"] starts with
    a URI scheme, yet the base origin is put in front of it. *)
Lemma link_with_other_scheme_is_prefixed :
  starts_with_uri_scheme (py "ftp://example.org/a") = true
  /\ option_map link (_parse_article_preview scraper ftp_article)
     = Some (py "https://habr.comftp://example.org/a")
  /\ ~ link_resolution_as_specified scraper ftp_article.
Proof.
  split; [reflexivity|]. split; [reflexivity|].
  intros H.
  specialize (H _ _ eq_refl eq_refl). vm_compute in H. discriminate H.
Qed.

(** C7 (witness): a preview whose title link has no [href], between two
    good previews. *)
Lemma malformed_fragment_is_skipped_witness :
  _parse_article_preview scraper no_href_article = None
  /\ forall before after articles,
      articles_loop scraper (before ++ no_href_article :: after) articles
      = articles
          ++ flat_map (fun x => to_list (_parse_article_preview scraper x))
                      (before ++ after).
Proof.
  apply (malformed_fragment_is_skipped (U := sample_tables) scraper no_href_article).
  eapply missing_href; reflexivity.
Defined.


(** ** Dates *)

(** C4 (counterexample). Where the platform does not pad the year, the
    first day of the year 999, written ["0999-01-01"], is read by the
    date-only format and comes back as ["999-01-01"], which is not of the
    shape [YYYY-MM-DD]. *)
Lemma year_below_1000_is_not_padded :
  _parse_date (U := unpadded_tables) (py "0999-01-01")
  = Return (py "999-01-01")
  /\ is_YYYY_MM_DD (py "999-01-01") = false
  /\ ~ normalizes_as_specified (U := unpadded_tables) (py "0999-01-01").
Proof.
  split; [vm_compute; reflexivity|]. split; [reflexivity|].
  intros H. destruct H as (out & Hout & Hshape).
  - exists (py "%Y-%m-%d"), (datetime.mk 999 1 1 0 0 0 0).
    split; [right; right; right; left; reflexivity | vm_compute; reflexivity].
  - vm_compute in Hout. injection Hout as <-. discriminate Hshape.
Qed.

(** C4 (witness of the amended statement): a time stamp of the listing
    page, a date in words and a short text. *)
Lemma parse_date_policy_witness :
  _parse_date (py "2024-05-17T09:15:42.000Z") = Return (py "2024-05-17")
  /\ is_YYYY_MM_DD (py "2024-05-17") = true
  /\ _parse_date (py "17 мая 2024, 09:15") = Return (py "17 мая 202")
  /\ _parse_date (py "вчера") = Return (py "вчера")
  /\ _parse_date [] = Return date_not_found.
Proof.
  assert (Hnone : forall raw,
             forallb (fun f => match datetime.strptime raw f with
                               | Raise _ => true
                               | Return _ => false
                               end) date_formats = true ->
             unrecognized raw).
  { intros raw H fmt Hin. rewrite forallb_forall in H. specialize (H fmt Hin).
    destruct (datetime.strptime raw fmt); [discriminate | eauto]. }
  assert (Hfirst : first_match (py "2024-05-17T09:15:42.000Z")
                               (py "%Y-%m-%dT%H:%M:%S.%fZ")
                               (datetime.mk 2024 5 17 9 15 42 0)).
  { exists [], (tl date_formats). repeat split. constructor. }
  split; [|split; [|split; [|split]]].
  - exact (proj1 (proj2 (proj1 (parse_date_policy (U := sample_tables)
                                  (py "2024-05-17T09:15:42.000Z"))
                               _ _ Hfirst)
                        sample_year_padded ltac:(discriminate))).
  - exact (proj2 (proj2 (proj1 (parse_date_policy (U := sample_tables)
                                  (py "2024-05-17T09:15:42.000Z"))
                               _ _ Hfirst)
                        sample_year_padded ltac:(discriminate))).
  - apply (proj1 (proj2 (proj2 (parse_date_policy (U := sample_tables) (py "17 мая 2024, 09:15"))))).
    + apply Hnone. vm_compute. reflexivity.
    + vm_compute. discriminate.
  - apply (proj1 (proj2 (proj2 (proj2
             (parse_date_policy (U := sample_tables) (py "вчера")))))).
    + apply Hnone. vm_compute. reflexivity.
    + discriminate.
    + reflexivity.
  - apply (proj2 (proj2 (proj2 (proj2 (parse_date_policy (U := sample_tables) []))))). reflexivity.
Defined.

(** C5 (witness): a time stamp with seconds and no fraction, and, where
    the year is not padded, a date of the year 999, whose normal form
    ["999-01-01"] no format reads. *)
Lemma parse_date_idempotent_witness :
  (exists out,
      _parse_date (py "2024-05-17T09:15:42Z") = Return out
      /\ _parse_date out = Return out)
  /\ (exists out,
         _parse_date (U := unpadded_tables) (py "0999-01-01") = Return out
         /\ _parse_date (U := unpadded_tables) out = Return out).
Proof.
  split.
  - apply (parse_date_idempotent (U := sample_tables) (py "2024-05-17T09:15:42Z")
             sample_ascii_digits sample_ascii_ignorecase sample_year_padded).
    exists (py "%Y-%m-%dT%H:%M:%SZ"), (datetime.mk 2024 5 17 9 15 42 0).
    split; [right; left; reflexivity | vm_compute; reflexivity].
  - apply (parse_date_idempotent (U := unpadded_tables) (py "0999-01-01")
             unpadded_ascii_digits unpadded_ascii_ignorecase
             unpadded_year_padded_or_short).
    exists (py "%Y-%m-%d"), (datetime.mk 999 1 1 0 0 0 0).
    split; [right; right; right; left; reflexivity | vm_compute; reflexivity].
Defined.

(** X6 (witness). *)
Lemma date_prefix_is_kept_witness :
  _parse_date (py "2024-02-30T25:61:00+03:00") = Return (py "2024-02-30").
Proof.
  apply (date_prefix_is_kept (U := sample_tables) 2024 2 30 (py "T25:61:00+03:00")
           sample_ascii_digits sample_ascii_ignorecase sample_year_padded);
    split; discriminate.
Defined.

(** X7 (witness). *)
Lemma parse_date_of_nonempty_witness :
  exists out,
    _parse_date (py "17 мая 2024, 09:15") = Return out
    /\ (List.length out <= 10)%nat
    /\ out <> date_not_found
    /\ ((exists fmt dt,
            first_match (py "17 мая 2024, 09:15") fmt dt
            /\ out = format_year (datetime.year dt) ++ [45]
                       ++ datetime.zpad 2 (datetime.month dt) ++ [45]
                       ++ datetime.zpad 2 (datetime.day dt)
            /\ (1000 <= datetime.year dt -> is_YYYY_MM_DD out = true))
        \/ (unrecognized (py "17 мая 2024, 09:15")
            /\ out = slice_to 10 (py "17 мая 2024, 09:15"))).
Proof.
  apply (parse_date_of_nonempty (U := sample_tables) (py "17 мая 2024, 09:15") sample_year_padded).
  discriminate.
Defined.

(** X8 (witness). *)
Lemma parse_date_after_other_exception_witness :
  parse_date_with (fun _ _ => Raise TypeError) pure_strftime (py "вчера")
  = Return date_not_found.
Proof.
  refine (eq_trans
            (parse_date_after_other_exception
               (fun _ _ => Raise TypeError) pure_strftime (py "вчера")
               [] (hd [] date_formats) (tl date_formats) TypeError
               _ eq_refl _ eq_refl eq_refl) _).
  - discriminate.
  - constructor.
  - vm_compute. reflexivity.
Defined.

(** X9 (witness). *)
Lemma record_date_from_time_stamp_witness :
  exists a,
    _parse_article_preview scraper no_time_article = Some a
    /\ date a = date_not_found.
Proof.
  eexists. split; [reflexivity|].
  apply (proj1 (record_date_from_time_stamp (U := sample_tables) scraper no_time_article _ eq_refl)).
  reflexivity.
Defined.

(** X10 (witness). *)
Lemma keyword_in_title_gives_record_witness :
  exists a,
    _parse_article_preview (__init__ [py "Python"] 3) no_time_article = Some a
    /\ title a = py "Учим Python быстро"
    /\ In (py "python") (found_keywords a).
Proof.
  refine (keyword_in_title_gives_record (U := sample_tables)
            [py "Python"] 3 no_time_article
            (bs4.Tag (py "a")
               [(py "href", py "/ru/articles/7/"); (py "class", py "tm-title__link")]
               [bs4.NavigableString (py "Учим Python быстро")])
            (py "Python") sample_space_is_no_word eq_refl _
            (or_introl eq_refl) _).
  - discriminate.
  - apply (proj1 (search_compile_word _ _)). vm_compute. reflexivity.
Defined.

(** X11 (witness). *)
Lemma record_keywords_match_preview_witness :
  exists a,
    _parse_article_preview scraper python_article = Some a
    /\ found_keywords a = occurring KEYWORDS (preview_text a).
Proof.
  eexists. split; [reflexivity|].
  apply (proj1 (record_keywords_match_preview (U := sample_tables)
                  KEYWORDS default_max_retries python_article _ eq_refl)).
Defined.

(** X13 (witness). *)
Lemma find_keywords_of_lowered_keywords_witness :
  __init__ (map lower [py "Python"; py "ФОТО"]) 3
  = __init__ [py "Python"; py "ФОТО"] 3
  /\ _find_keywords_with_regex
       (__init__ (map lower [py "Python"; py "ФОТО"]) 3) (py "фото")
     = _find_keywords_with_regex
         (__init__ [py "Python"; py "ФОТО"] 3) (py "фото").
Proof.
  apply (find_keywords_of_lowered_keywords (U := sample_tables)
           [py "Python"; py "ФОТО"] 3 (py "фото") sample_lower_idempotent).
Defined.

(** ** Reports *)

(** X14 (witness). *)
Lemma print_articles_layout_witness :
  exists a,
    _parse_article_preview scraper python_article = Some a
    /\ List.length (print_articles [a; a]) = 8%nat
    /\ nth_error (print_articles [a; a]) 1 = Some (repeat 45 100)
    /\ nth_error (print_articles [a; a]) 5 = Some (entry_line 2 a).
Proof.
  eexists. split; [reflexivity|].
  match goal with
  | |- List.length (print_articles ?l) = _ /\ _ =>
      destruct (proj2 (print_articles_layout l)) as (Hlen & _ & Hrule & Hnth);
      [discriminate|]
  end.
  split; [exact Hlen|]. split; [exact Hrule|].
  exact (proj1 (Hnth 1%nat _ eq_refl)).
Defined.



(** X17 (witness). *)
Lemma report_entries_witness :
  exists a,
    _parse_article_preview scraper python_article = Some a
    /\ nth_error (report_writes [a]) 4
       = Some (py "   Превью: " ++ preview_text a ++ py "..." ++ [10; 10]).
Proof.
  eexists. split; [reflexivity|].
  match goal with
  | |- nth_error (report_writes [?a]) 4 = _ =>
      destruct (proj2 (report_entries [a]) 0%nat a eq_refl)
        as (_ & _ & H & _ & Hshort)
  end.
  rewrite <- Hshort; [exact H|]. vm_compute. lia.
Defined.

(** X18 (witness). *)
Lemma main_when_site_is_down_witness :
  main down_net no_parser io_ok empty_fs (mkWorld 0 [])
  = (Return tt,
     banner ++ [not_found_message; saved_message default_filename],
     write_file empty_fs default_filename (report_text []),
     mkWorld 3 [1; 2]).
Proof.
  apply (main_when_site_is_down (U := sample_tables) down_net no_parser io_ok empty_fs
                                (mkWorld 0 [])).
  - intros url i _. reflexivity.
  - exists tt. reflexivity.
  - intros k. exists tt. reflexivity.
Defined.

(** X20 (witness). *)
Lemma record_text_and_link_shape_witness :
  exists a,
    _parse_article_preview scraper ftp_article = Some a
    /\ startswith (link a) (py "http") = true.
Proof.
  eexists. split; [reflexivity|].
  apply (proj2 (record_text_and_link_shape (U := sample_tables) scraper ftp_article _ eq_refl)).
Defined.

(** X21 (witness). *)
Lemma record_title_is_trimmed_witness :
  exists a,
    _parse_article_preview scraper python_article = Some a
    /\ trimmed (title a).
Proof.
  eexists. split; [reflexivity|].
  apply (record_title_is_trimmed (U := sample_tables) scraper python_article). reflexivity.
Defined.

